(** * Code-action dispatch of the Elm language server

    A shallow embedding of [CodeActionProvider] (the dispatcher and its
    range-based refactor detectors) and of the
    "introduce new function argument" fix provider, together with the
    properties of the dispatch order, of the fix-all gating and of the
    synthesized text edits. *)

From Stdlib Require Import Ascii String List Bool Arith Lia.
From stdpp Require Import base option list strings gmap.

Set Default Proof Using "Type".

(** ** Protocol data (vscode-languageserver) *)

Record Position := mkPosition { line : nat; character : nat }.

Record Range := mkRange { r_start : Position; r_end : Position }.

(** [Diagnostic.code] is [integer | string | undefined] in the protocol. *)
Inductive DiagCode :=
| CodeAbsent
| CodeNum (n : Z)
| CodeStr (s : string).

Record Diagnostic := mkDiagnostic {
  d_code : DiagCode;
  d_range : Range;
  d_message : string
}.

Record TextEdit := mkTextEdit { te_range : Range; te_newText : string }.

Inductive CodeActionKind :=
| QuickFix
| Refactor
| RefactorRewrite
| SourceFixAll.

(** The command attached to the "Move Function" action:
    [elm.refactor] with arguments
    [["moveFunction", { textDocument, range }, functionName]]. *)
Record Command := mkCommand {
  cmd_title : string;
  cmd_command : string;
  cmd_kind : string;
  cmd_uri : string;
  cmd_range : Range;
  cmd_functionName : string
}.

(** [edit.changes] is an object keyed by document URI; every action built
    here has at most one key, so the pairs are kept in a list. *)
Record CodeAction := mkCodeAction {
  ca_title : string;
  ca_kind : option CodeActionKind;
  ca_changes : option (list (string * list TextEdit));
  ca_diagnostics : option (list Diagnostic);
  ca_isPreferred : option bool;
  ca_command : option Command
}.

Module TextEdits.
(** [TextEdit.insert(position, newText)] *)
Definition insert (p : Position) (newText : string) : TextEdit :=
  mkTextEdit (mkRange p p) newText.
End TextEdits.

(** ** Decidable equalities used by the strict comparisons of the code *)

Global Instance Position_eq_dec : EqDecision Position.
Proof. solve_decision. Defined.
Global Instance Range_eq_dec : EqDecision Range.
Proof. solve_decision. Defined.
Global Instance DiagCode_eq_dec : EqDecision DiagCode.
Proof. solve_decision. Defined.
Global Instance Diagnostic_eq_dec : EqDecision Diagnostic.
Proof. solve_decision. Defined.

(** [typeof c === "string"] *)
Definition isStringCode (c : DiagCode) : bool :=
  match c with CodeStr _ => true | _ => false end.

(** [a === b] on diagnostic codes. *)
Definition code_strict_eq (a b : DiagCode) : bool := bool_decide (a = b).

(** ** Syntax trees (web-tree-sitter)

    A parsed tree is a rose tree of typed, positioned nodes; children carry
    their optional field name.  A [SyntaxNode] is a node together with the
    chain of its ancestors (each with the index of the child taken), nearest
    ancestor first, which gives [parent] and [previousSibling]. *)

#[warnings="-register-all"]
Inductive Tree :=
| mkTree (ty : string) (text : string) (startPosition endPosition : Position)
         (children : list (option string * Tree)).

Definition t_type (t : Tree) : string := let 'mkTree ty _ _ _ _ := t in ty.
Definition t_text (t : Tree) : string := let 'mkTree _ tx _ _ _ := t in tx.
Definition t_start (t : Tree) : Position := let 'mkTree _ _ s _ _ := t in s.
Definition t_end (t : Tree) : Position := let 'mkTree _ _ _ e _ := t in e.
Definition t_children (t : Tree) : list (option string * Tree) :=
  let 'mkTree _ _ _ _ cs := t in cs.

Record SyntaxNode := mkNode {
  sn_tree : Tree;
  sn_up : list (Tree * nat)
}.

Module Node.
Definition type (n : SyntaxNode) : string := t_type (sn_tree n).
Definition text (n : SyntaxNode) : string := t_text (sn_tree n).
Definition startPosition (n : SyntaxNode) : Position := t_start (sn_tree n).
Definition endPosition (n : SyntaxNode) : Position := t_end (sn_tree n).

Definition parent (n : SyntaxNode) : option SyntaxNode :=
  match sn_up n with
  | [] => None
  | (p, _) :: up => Some (mkNode p up)
  end.

Definition child (n : SyntaxNode) (i : nat) : option SyntaxNode :=
  c ← t_children (sn_tree n) !! i;
  Some (mkNode c.2 ((sn_tree n, i) :: sn_up n)).

Definition firstChild (n : SyntaxNode) : option SyntaxNode := child n 0.

Definition lastChild (n : SyntaxNode) : option SyntaxNode :=
  child n (pred (length (t_children (sn_tree n)))).

Definition previousSibling (n : SyntaxNode) : option SyntaxNode :=
  match sn_up n with
  | (p, S i) :: up => child (mkNode p up) i
  | _ => None
  end.

Fixpoint index_of_field (name : string) (cs : list (option string * Tree))
    (i : nat) : option nat :=
  match cs with
  | [] => None
  | (f, _) :: cs' =>
      if bool_decide (f = Some name) then Some i
      else index_of_field name cs' (S i)
  end.

Definition childForFieldName (n : SyntaxNode) (name : string)
    : option SyntaxNode :=
  i ← index_of_field name (t_children (sn_tree n)) 0;
  child n i.

(** The chain of proper ancestors, nearest first. *)
Fixpoint ancestors_from (up : list (Tree * nat)) : list SyntaxNode :=
  match up with
  | [] => []
  | (p, _) :: up' => mkNode p up' :: ancestors_from up'
  end.

Definition ancestors (n : SyntaxNode) : list SyntaxNode :=
  ancestors_from (sn_up n).
End Node.

Definition rootNode (t : Tree) : SyntaxNode := mkNode t [].

(** [ISourceFile] / tree container: a document with its parsed tree. *)
Record SourceFile := mkSourceFile { sf_uri : string; sf_tree : Tree }.

(** ** Collaborators: type checker, forest, program *)

Record TypeChecker := mkTypeChecker {
  ElmType : Type;
  findType : SyntaxNode -> ElmType;
  typeToString : ElmType -> SourceFile -> string
}.

Record Forest := mkForest {
  getTree : string -> option Tree;
  getByUri : string -> option SourceFile
}.

Record Program := mkProgram {
  getForest : Forest;
  getTypeChecker : TypeChecker;
  getDiagnostics : SourceFile -> list Diagnostic
}.

(** [ICodeActionParams = CodeActionParams & IParams].  An entry of
    [context.diagnostics] may be [null]/[undefined] on the wire (the
    dispatcher reads it through [diagnostic?.code]); that is [None]. *)
Record Params := mkParams {
  textDocument_uri : string;
  range : Range;
  context_diagnostics : list (option Diagnostic);
  program : Program;
  sourceFile : SourceFile
}.

Definition set_range (p : Params) (r : Range) : Params :=
  mkParams (textDocument_uri p) r (context_diagnostics p) (program p)
           (sourceFile p).

(** [ICodeActionRegistration] *)
Record Registration := mkRegistration {
  errorCodes : list string;
  fixId : string;
  getCodeActions : Params -> option (list CodeAction);
  getFixAllCodeAction : Params -> option CodeAction
}.

(** The helpers of [util/treeUtils] that the dispatcher and the provider
    call; both are parametric in them. *)
Class TreeUtils := {
  getNamedDescendantForPosition : SyntaxNode -> Position -> SyntaxNode;
  getNamedDescendantForRange : SourceFile -> Range -> SyntaxNode;
  findParentOfType : string -> SyntaxNode -> option SyntaxNode;
  getTypeAnnotation : SyntaxNode -> option SyntaxNode;
  isExposedFunction : Tree -> string -> bool;
  isExposedTypeOrTypeAlias : Tree -> string -> bool;
  findAllTopLevelFunctionDeclarations : Tree -> option (list SyntaxNode)
}.

(** Helpers of [util/refactorEditUtils], likewise parameters. *)
Class RefactorEditUtils := {
  unexposedValueInModule : Tree -> string -> option TextEdit;
  exposeValueInModule : Tree -> string -> option TextEdit;
  findLineNumberAfterCurrentFunction : SyntaxNode -> option nat;
  createTopLevelFunction :
    nat -> string -> string -> option SyntaxNode -> option TextEdit
}.

(** [diagnosticsEquals] of [providers/diagnostics/fileDiagnostics] and the
    diagnostic code constants of [Diagnostics]. *)
Class DiagnosticsModule := {
  diagnosticsEquals : Diagnostic -> Diagnostic -> bool;
  MissingTypeAnnotation_code : string;
  MissingValue_code : string
}.

(** Modelled from the spec: [TreeUtils.getAllAncestorsOfType] is missing
    from the sources; the spec has the syntax cursor utilities "walk
    ancestors by node-type", so the parent chain of the node is walked
    upwards and the ancestors of the wanted type are collected as they are
    met. *)
Definition getAllAncestorsOfType (typeToLookFor : string) (n : SyntaxNode)
    : list SyntaxNode :=
  List.filter (fun a => String.eqb (Node.type a) typeToLookFor)
              (Node.ancestors n).

(** Modelled from the spec: [MultiMap] of [util/multiMap] is missing from
    the sources; per the spec the registry is keyed by diagnostic code and
    multi-valued, [set] stores a provider under a code after the ones
    already there, and [getAll] returns the providers of a code in
    registration order, the empty list for an unknown code. *)
Module MultiMap.
Definition t (V : Type) := gmap string (list V).
Definition empty {V} : t V := ∅.
Definition getAll {V} (m : t V) (key : string) : list V :=
  default [] (m !! key).
Definition set {V} (key : string) (val : V) (m : t V) : t V :=
  <[key := getAll m key ++ [val]]> m.
End MultiMap.

(** Modelled from the spec: [flatMap] of [util/treeUtils] is missing from
    the sources; the dispatcher applies the providers "first-registered,
    first-applied" and concatenates what they return, so the results of the
    callback are concatenated in the order of the list. *)
Definition flatMap {A B} (xs : list A) (f : A -> list B) : list B :=
  concat (map f xs).

(** ** Strings *)

(** [s.includes(needle)] *)
Fixpoint includes (s needle : string) : bool :=
  String.prefix needle s ||
  match s with
  | EmptyString => false
  | String _ s' => includes s' needle
  end.

(** [Array(n + 1).join(" ")]: [n] spaces. *)
Fixpoint spaces (n : nat) : string :=
  match n with
  | O => ""
  | S n' => " " +:+ spaces n'
  end.

(** ** The dispatcher's effects

    A request handler reads and assigns the [params] object it was handed
    ([params.range = diagnostic.range]) and calls into the registered
    providers.  The world threads that object and the log of provider
    calls; an access through [null] throws. *)

Inductive Event :=
| CalledGetCodeActions (reg : Registration) (p : Params)
| CalledGetFixAllCodeAction (reg : Registration) (p : Params).

Record World := mkWorld { w_params : Params; w_log : list Event }.

Inductive Outcome (A : Type) :=
| Returned (a : A) (w : World)
| Threw (w : World).
Arguments Returned {A} a w.
Arguments Threw {A} w.

Definition M (A : Type) : Type := World -> Outcome A.

Global Instance M_ret : MRet M := fun A a w => Returned a w.

Global Instance M_bind : MBind M := fun A B k m w =>
  match m w with
  | Returned a w' => k a w'
  | Threw w' => Threw w'
  end.

Definition getParams : M Params := fun w => Returned (w_params w) w.

(** [params.range = r] *)
Definition assignRange (r : Range) : M unit :=
  fun w => Returned tt (mkWorld (set_range (w_params w) r) (w_log w)).

Definition emit (e : Event) : M unit :=
  fun w => Returned tt (mkWorld (w_params w) (w_log w ++ [e])).

Definition throwTypeError {A} : M A := fun w => Threw w.

(** [results.push(...f(x))] for each [x] of an array, in order. *)
Fixpoint flatMapM {A B} (f : A -> M (list B)) (xs : list A) : M (list B) :=
  match xs with
  | [] => mret []
  | x :: xs' =>
      ys ← f x;
      zs ← flatMapM f xs';
      mret (ys ++ zs)
  end.

Definition initial (p : Params) : World := mkWorld p [].

(** [o?.type === ty] *)
Definition type_is (o : option SyntaxNode) (ty : string) : bool :=
  match o with
  | Some n => String.eqb (Node.type n) ty
  | None => false
  end.

(** [o?.text == s] *)
Definition text_is (o : option SyntaxNode) (s : string) : bool :=
  match o with
  | Some n => String.eqb (Node.text n) s
  | None => false
  end.

(** Truthiness of an object-or-undefined value. *)
Definition truthy {A} (o : option A) : bool :=
  match o with Some _ => true | None => false end.

(** [nodeAtPosition.parent?.parent], [...?.parent?.parent?.parent] *)
Definition grandParent (n : SyntaxNode) : option SyntaxNode :=
  Node.parent n ≫= Node.parent.

(** The pattern shared by the usage-based detections: a lower-case
    identifier inside a [value_expr] that is not the root and is not
    preceded by a dot. *)
Definition isBareValueUsage (nodeAtPosition : SyntaxNode) : bool :=
  String.eqb (Node.type nodeAtPosition) "lower_case_identifier"
  && type_is (grandParent nodeAtPosition) "value_expr"
  && truthy (grandParent nodeAtPosition ≫= Node.parent)
  && negb (type_is (Node.previousSibling nodeAtPosition) "dot").

Definition newline : string := String (ascii_of_nat 10) EmptyString.
Definition dquote : string := String (ascii_of_nat 34) EmptyString.

(** The fields of a [CodeActionProvider] instance that a request reads:
    the settings flag and the two external diagnostics sources. *)
Record Services := mkServices {
  moveFunctionRefactoringSupport : bool;
  elmMake_onCodeAction : Params -> list CodeAction;
  elmDiagnostics_onCodeAction : Params -> list CodeAction
}.

(** ** [CodeActionProvider] *)

Module CodeActionProvider.

(** The static members. *)
Module Static.
Definition registerCodeAction (registration : Registration)
    (m : MultiMap.t Registration) : MultiMap.t Registration :=
  foldl (fun acc code => MultiMap.set code registration acc) m
        (errorCodes registration).

(** The diagnostics on which [forEachDiagnostic] runs its callback. *)
Definition forEachDiagnostic (params : Params) (codes : list string)
    : list Diagnostic :=
  List.filter
    (fun diagnostic =>
       match d_code diagnostic with
       | CodeStr c => bool_decide (c ∈ codes)
       | _ => false
       end)
    (getDiagnostics (program params) (sourceFile params)).

Definition getCodeAction (params : Params) (title : string)
    (edits : list TextEdit) : CodeAction :=
  {| ca_title := title;
     ca_kind := Some QuickFix;
     ca_changes := Some [(sf_uri (sourceFile params), edits)];
     ca_diagnostics := None;
     ca_isPreferred := Some true;
     ca_command := None |}.

(** The callback pushes onto the shared [edits] array; it is given the
    array so far and returns the array after its pushes. *)
Definition getFixAllCodeAction (title : string) (params : Params)
    (codes : list string)
    (callback : list TextEdit -> Diagnostic -> list TextEdit) : CodeAction :=
  let diagnostics := forEachDiagnostic params codes in
  let edits := foldl callback [] diagnostics in
  {| ca_title := title;
     ca_kind := Some SourceFixAll;
     ca_changes := Some [(sf_uri (sourceFile params), edits)];
     ca_diagnostics := Some diagnostics;
     ca_isPreferred := None;
     ca_command := None |}.
End Static.

Section Dispatcher.
Context {TU : TreeUtils} {RU : RefactorEditUtils} {DM : DiagnosticsModule}.
Variable this : Services.
Variable errorCodeToRegistrationMap : MultiMap.t Registration.

Definition addDiagnosticToCodeAction (codeAction : CodeAction)
    (diagnostic : Diagnostic) : CodeAction :=
  {| ca_title := ca_title codeAction;
     ca_kind := ca_kind codeAction;
     ca_changes := ca_changes codeAction;
     ca_diagnostics := Some [diagnostic];
     ca_isPreferred := ca_isPreferred codeAction;
     ca_command := ca_command codeAction |}.

Definition insertQuickFixAtStart (uri replaceWith : string)
    (diagnostic : Diagnostic) (title : string) : CodeAction :=
  {| ca_title := title;
     ca_kind := Some QuickFix;
     ca_changes :=
       Some [(uri, [TextEdits.insert (r_start (d_range diagnostic))
                                     replaceWith])];
     ca_diagnostics := Some [diagnostic];
     ca_isPreferred := None;
     ca_command := None |}.

Definition refactorAction (title uri : string) (edit : TextEdit)
    (kind : CodeActionKind) : CodeAction :=
  {| ca_title := title;
     ca_kind := Some kind;
     ca_changes := Some [(uri, [edit])];
     ca_diagnostics := None;
     ca_isPreferred := None;
     ca_command := None |}.

Definition getTypeAnnotationCodeActions (params : Params)
    : list CodeAction :=
  let forest := getForest (program params) in
  let treeContainer := getByUri forest (textDocument_uri params) in
  let checker := getTypeChecker (program params) in
  match treeContainer with
  | Some container =>
      let nodeAtPosition :=
        getNamedDescendantForPosition (rootNode (sf_tree container))
                                      (r_start (range params)) in
      match Node.parent nodeAtPosition with
      | Some parent =>
          if String.eqb (Node.type parent) "function_declaration_left"
             && truthy (findParentOfType "let_in_expr" nodeAtPosition)
          then
            match Node.parent parent with
            | Some grandParent =>
                if negb (truthy (getTypeAnnotation grandParent)) then
                  let typeString :=
                    typeToString checker (findType checker parent)
                                 container in
                  [refactorAction "Add inferred annotation"
                     (textDocument_uri params)
                     (TextEdits.insert
                        (mkPosition
                           (line (Node.startPosition nodeAtPosition))
                           (character (Node.startPosition nodeAtPosition)))
                        (Node.text nodeAtPosition +:+ " : " +:+ typeString
                         +:+ newline
                         +:+ spaces (character
                                       (Node.startPosition nodeAtPosition))))
                     QuickFix]
                else []
            | None => []
            end
          else []
      | None => []
      end
  | None => []
  end.

Definition getFunctionCodeActions (params : Params) (tree : Tree)
    (nodeAtPosition : SyntaxNode) : list CodeAction :=
  if (type_is (Node.parent nodeAtPosition) "type_annotation"
      || type_is (Node.parent nodeAtPosition) "function_declaration_left")
     && negb (truthy (findParentOfType "let_in_expr" nodeAtPosition))
  then
    let functionName := Node.text nodeAtPosition in
    (if moveFunctionRefactoringSupport this then
       [{| ca_title := "Move Function";
           ca_kind := Some RefactorRewrite;
           ca_changes := None;
           ca_diagnostics := None;
           ca_isPreferred := None;
           ca_command :=
             Some (mkCommand "Refactor" "elm.refactor" "moveFunction"
                             (textDocument_uri params) (range params)
                             functionName) |}]
     else [])
    ++
    (if isExposedFunction tree functionName then
       match unexposedValueInModule tree functionName with
       | Some edit =>
           [refactorAction "Unexpose Function" (textDocument_uri params)
                           edit Refactor]
       | None => []
       end
     else
       match exposeValueInModule tree functionName with
       | Some edit =>
           [refactorAction "Expose Function" (textDocument_uri params)
                           edit Refactor]
       | None => []
       end)
  else [].

Definition getTypeAliasCodeActions (params : Params) (tree : Tree)
    (nodeAtPosition : SyntaxNode) : list CodeAction :=
  if String.eqb (Node.type nodeAtPosition) "upper_case_identifier"
     && (type_is (Node.parent nodeAtPosition) "type_alias_declaration"
         || type_is (Node.parent nodeAtPosition) "type_declaration")
  then
    let typeName := Node.text nodeAtPosition in
    let alias :=
      if type_is (Node.parent nodeAtPosition) "type_alias_declaration"
      then " Alias" else "" in
    if isExposedTypeOrTypeAlias tree typeName then
      match unexposedValueInModule tree typeName with
      | Some edit =>
          [refactorAction ("Unexpose Type" +:+ alias)
                          (textDocument_uri params) edit Refactor]
      | None => []
      end
    else
      match exposeValueInModule tree typeName with
      | Some edit =>
          [refactorAction ("Expose Type" +:+ alias)
                          (textDocument_uri params) edit Refactor]
      | None => []
      end
  else [].

(** [a.firstChild?.text == funcName
    || a.firstChild?.firstChild?.text == funcName] *)
Definition declares (funcName : string) (a : SyntaxNode) : bool :=
  text_is (Node.firstChild a) funcName
  || text_is (Node.firstChild a ≫= Node.firstChild) funcName.

(** [findAllTopLevelFunctionDeclarations(tree)?.some(...)], as the
    condition of the [if] reads it: [undefined] is falsy. *)
Definition alreadyDeclared (tree : Tree) (funcName : string) : bool :=
  match findAllTopLevelFunctionDeclarations tree with
  | Some decls => existsb (declares funcName) decls
  | None => false
  end.

Definition getMakeDeclarationFromUsageCodeActions (params : Params)
    (nodeAtPosition : SyntaxNode) : list CodeAction :=
  if isBareValueUsage nodeAtPosition then
    let funcName := Node.text nodeAtPosition in
    let tree := sf_tree (sourceFile params) in
    let checker := getTypeChecker (program params) in
    if negb (alreadyDeclared tree funcName) then
      let insertLineNumber :=
        findLineNumberAfterCurrentFunction nodeAtPosition in
      let typeString :=
        typeToString checker (findType checker nodeAtPosition)
                     (sourceFile params) in
      let edit :=
        createTopLevelFunction
          (default (line (Node.endPosition (rootNode tree)))
                   insertLineNumber)
          funcName typeString
          (findParentOfType "function_call_expr" nodeAtPosition) in
      match edit with
      | Some e =>
          [refactorAction "Create local function"
                          (textDocument_uri params) e QuickFix]
      | None => []
      end
    else []
  else [].

Definition getRefactorCodeActions (params : Params) : list CodeAction :=
  let forest := getForest (program params) in
  match getTree forest (textDocument_uri params) with
  | Some tree =>
      let nodeAtPosition :=
        getNamedDescendantForPosition (rootNode tree)
                                      (r_start (range params)) in
      getFunctionCodeActions params tree nodeAtPosition
      ++ getTypeAliasCodeActions params tree nodeAtPosition
      ++ getMakeDeclarationFromUsageCodeActions params nodeAtPosition
  | None => []
  end.

(** The body of the [forEach] of [convertDiagnosticsToCodeActions];
    [diagnostic.code] on a [null] entry throws. *)
Definition convertDiagnostic (container : SourceFile)
    (checker : TypeChecker) (uri : string) (entry : option Diagnostic)
    : M (list CodeAction) :=
  match entry with
  | None => throwTypeError
  | Some diagnostic =>
      if code_strict_eq (d_code diagnostic)
                        (CodeStr MissingTypeAnnotation_code)
      then
        let nodeAtPosition :=
          getNamedDescendantForPosition (rootNode (sf_tree container))
                                        (r_start (d_range diagnostic)) in
        match Node.parent nodeAtPosition with
        | Some parent =>
            let typeString :=
              typeToString checker (findType checker parent) container in
            mret [insertQuickFixAtStart uri
                    (Node.text nodeAtPosition +:+ " : " +:+ typeString
                     +:+ newline)
                    diagnostic "Add inferred annotation"]
        | None => mret []
        end
      else mret []
  end.

Definition convertDiagnosticsToCodeActions
    (diagnostics : list (option Diagnostic)) (elmWorkspace : Program)
    (uri : string) : M (list CodeAction) :=
  let forest := getForest elmWorkspace in
  let treeContainer := getByUri forest uri in
  let checker := getTypeChecker elmWorkspace in
  match treeContainer with
  | Some container =>
      flatMapM (convertDiagnostic container checker uri) diagnostics
  | None => mret []
  end.

(** Is there a diagnostic of the document, other than [diagnostic], with
    the same code? *)
Definition hasOtherWithSameCode (params : Params) (diagnostic : Diagnostic)
    : bool :=
  existsb
    (fun diag =>
       negb (diagnosticsEquals diag diagnostic)
       && code_strict_eq (d_code diag) (d_code diagnostic))
    (getDiagnostics (program params) (sourceFile params)).

(** The callback handed to [flatMap] for one registration. *)
Definition registrationActions (diagnostic : Diagnostic)
    (reg : Registration) : M (list CodeAction) :=
  params ← getParams;
  emit (CalledGetCodeActions reg params);;
  let codeActions :=
    map (fun codeAction => addDiagnosticToCodeAction codeAction diagnostic)
        (default [] (getCodeActions reg params)) in
  if (0 <? length codeActions) && hasOtherWithSameCode params diagnostic
  then
    emit (CalledGetFixAllCodeAction reg params);;
    match getFixAllCodeAction reg params with
    | Some fixAllCodeAction => mret (codeActions ++ [fixAllCodeAction])
    | None => mret codeActions
    end
  else mret codeActions.

(** The body of the [forEach] over [params.context.diagnostics]. *)
Definition diagnosticActions (entry : option Diagnostic)
    : M (list CodeAction) :=
  match entry with
  | Some diagnostic =>
      match d_code diagnostic with
      | CodeStr code =>
          let registrations :=
            MultiMap.getAll errorCodeToRegistrationMap code in
          assignRange (d_range diagnostic);;
          flatMapM (registrationActions diagnostic) registrations
      | _ => mret []
      end
  | None => mret []
  end.

Definition onCodeAction : M (list CodeAction) :=
  params ← getParams;
  let make := elmMake_onCodeAction this params in
  let elmDiagnostics := elmDiagnostics_onCodeAction this params in
  results ← flatMapM diagnosticActions (context_diagnostics params);
  params ← getParams;
  converted ← convertDiagnosticsToCodeActions
                (context_diagnostics params) (program params)
                (textDocument_uri params);
  params ← getParams;
  mret (results
        ++ converted
        ++ getRefactorCodeActions params
        ++ getTypeAnnotationCodeActions params
        ++ make
        ++ elmDiagnostics).
End Dispatcher.
End CodeActionProvider.

(** ** The "introduce new function argument" provider *)

Module IntroduceNewFunctionArgument.
Section Provider.
Context {TU : TreeUtils} {DM : DiagnosticsModule}.

Definition errorCodes : list string := [MissingValue_code].
Definition fixId : string := "introduce_new_function_argument".

(** [typeString.includes(" ") ? `(${typeString})` : typeString] *)
Definition typeStringWithParen (typeString : string) : string :=
  if includes typeString " " then "(" +:+ typeString +:+ ")"
  else typeString.

Definition getActionsForValueDeclaration
    (valueDeclaration nodeAtPosition : SyntaxNode) (params : Params)
    : option CodeAction :=
  match Node.firstChild valueDeclaration ≫= Node.lastChild with
  | None => None
  | Some lastPattern =>
      let valueArgumentPosition :=
        mkPosition (line (Node.endPosition lastPattern))
                   (character (Node.endPosition lastPattern) + 1) in
      let edits :=
        [TextEdits.insert valueArgumentPosition
                          (Node.text nodeAtPosition +:+ " ")] in
      let typeAnnotation := getTypeAnnotation valueDeclaration in
      let lastArgumentType :=
        (typeAnnotation
           ≫= (fun a => Node.childForFieldName a "typeExpression"))
          ≫= Node.lastChild in
      let edits :=
        match lastArgumentType with
        | Some lastArgument =>
            let checker := getTypeChecker (program params) in
            let type := findType checker nodeAtPosition in
            let typeString :=
              typeToString checker type (sourceFile params) in
            let typeArgumentPosition :=
              mkPosition (line (Node.startPosition lastArgument))
                         (character (Node.startPosition lastArgument)) in
            edits ++ [TextEdits.insert typeArgumentPosition
                        (typeStringWithParen typeString +:+ " -> ")]
        | None => edits
        end in
      let functionName :=
        default "undefined"
                (Node.text <$>
                   (Node.firstChild valueDeclaration ≫= Node.firstChild)) in
      Some (CodeActionProvider.Static.getCodeAction params
              ("Add new parameter to " +:+ dquote +:+ functionName
               +:+ dquote)
              edits)
  end.

Definition getActions (params : Params) (range : Range)
    : option (list CodeAction) :=
  let nodeAtPosition :=
    getNamedDescendantForRange (sourceFile params) range in
  if isBareValueUsage nodeAtPosition then
    Some (omap (fun valueDeclaration =>
                  getActionsForValueDeclaration valueDeclaration
                                                nodeAtPosition params)
               (getAllAncestorsOfType "value_declaration" nodeAtPosition))
  else None.

Definition registration : Registration :=
  mkRegistration errorCodes fixId
                 (fun params => getActions params (range params))
                 (fun _ => None).
End Provider.
End IntroduceNewFunctionArgument.

(** ** Vocabulary of the statements about the provider's edits *)

(** A string contains a space character. *)
Definition contains_space (s : string) : Prop :=
  In " "%char (list_ascii_of_string s).

Section EditVocabulary.
Context {TU : TreeUtils}.

(** The return type of the declaration's signature: the last child of the
    type expression of its annotation. *)
Definition lastArgumentType (valueDeclaration : SyntaxNode)
    : option SyntaxNode :=
  (getTypeAnnotation valueDeclaration
     ≫= (fun a => Node.childForFieldName a "typeExpression"))
    ≫= Node.lastChild.

(** The inferred type of the identifier, rendered for its document. *)
Definition renderedType (nodeAtPosition : SyntaxNode) (params : Params)
    : string :=
  let checker := getTypeChecker (program params) in
  typeToString checker (findType checker nodeAtPosition)
               (sourceFile params).

Definition parameterEdit (lastPattern : Tree) (nodeAtPosition : SyntaxNode)
    : TextEdit :=
  TextEdits.insert
    (mkPosition (line (t_end lastPattern))
                (character (t_end lastPattern) + 1))
    (Node.text nodeAtPosition +:+ " ").

(** A declaration has a last pattern: [valueDeclaration.firstChild.lastChild]
    is there. *)
Definition hasLastPattern (valueDeclaration : SyntaxNode) : bool :=
  truthy (Node.firstChild valueDeclaration ≫= Node.lastChild).

Definition isValueDeclaration (n : SyntaxNode) : bool :=
  String.eqb (Node.type n) "value_declaration".

(** The title of the action for a declaration. *)
Definition newParameterTitle (valueDeclaration : SyntaxNode) : string :=
  "Add new parameter to " +:+ dquote
  +:+ default "undefined"
        (Node.text <$> (Node.firstChild valueDeclaration
                          ≫= Node.firstChild))
  +:+ dquote.
End EditVocabulary.

(** ** Vocabulary of the statements about the dispatcher *)

Section DispatchVocabulary.
Context {DM : DiagnosticsModule}.

(** The single-fix actions of a provider for a diagnostic: what its
    [getCodeActions] returns, each tagged with the diagnostic. *)
Definition singleFixActions (diagnostic : Diagnostic) (reg : Registration)
    (params : Params) : list CodeAction :=
  map (fun codeAction =>
         CodeActionProvider.addDiagnosticToCodeAction codeAction diagnostic)
      (default [] (getCodeActions reg params)).

(** The provider returned at least one action, and a diagnostic of the
    document that is not identical to [diagnostic] has its code. *)
Definition fixAllOffered (diagnostic : Diagnostic) (reg : Registration)
    (params : Params) : Prop :=
  (exists a l, getCodeActions reg params = Some (a :: l))
  /\ exists diag,
      In diag (getDiagnostics (program params) (sourceFile params))
      /\ diagnosticsEquals diag diagnostic = false
      /\ d_code diag = d_code diagnostic.

(** What the dispatcher collects from one provider for a diagnostic: its
    single-fix actions, followed by its fix-all action, if it returns one,
    exactly when the fix-all is offered. *)
Definition isProviderPart (diagnostic : Diagnostic) (params : Params)
    (reg : Registration) (part : list CodeAction) : Prop :=
  (fixAllOffered diagnostic reg params ->
   part = singleFixActions diagnostic reg params
          ++ option_list (getFixAllCodeAction reg params))
  /\ (~ fixAllOffered diagnostic reg params ->
      part = singleFixActions diagnostic reg params).

(** A call of [getFixAllCodeAction] of the provider is in the log. *)
Definition fixAllCalled (reg : Registration) (log : list Event) : Prop :=
  exists p, In (CalledGetFixAllCodeAction reg p) log.

Definition isFixAllCall (e : Event) : bool :=
  match e with
  | CalledGetFixAllCodeAction _ _ => true
  | CalledGetCodeActions _ _ => false
  end.

(** The range the [params] object holds after the loop over the context
    diagnostics, started with range [r]. *)
Definition rangeAfter (diagnostics : list (option Diagnostic)) (r : Range)
    : Range :=
  foldl (fun r entry =>
           match entry with
           | Some diagnostic =>
               if isStringCode (d_code diagnostic) then d_range diagnostic
               else r
           | None => r
           end)
        r diagnostics.

(** The entry is a diagnostic whose code is a string. *)
Definition hasStringCode (entry : option Diagnostic) : bool :=
  match entry with
  | Some diagnostic => isStringCode (d_code diagnostic)
  | None => false
  end.

(** What a computation returns, if it returns. *)
Definition returned {A} (o : Outcome A) : option A :=
  match o with
  | Returned a _ => Some a
  | Threw _ => None
  end.

(** The [params] object a computation leaves behind. *)
Definition paramsAfter {A} (o : Outcome A) : Params :=
  match o with
  | Returned _ w => w_params w
  | Threw w => w_params w
  end.

(** A computation whose result and final [params] do not depend on the
    log of earlier provider calls. *)
Definition logFree {A} (m : M A) : Prop :=
  forall w1 w2,
    w_params w1 = w_params w2 ->
    returned (m w1) = returned (m w2)
    /\ paramsAfter (m w1) = paramsAfter (m w2).
End DispatchVocabulary.

(** ** Insertions as an editor applies them

    [TextEdit.insert] at column [col] of a line puts the new text between
    the first [col] characters of the line and the rest. *)
Definition insertOnLine (text : string) (col : nat) (newText : string)
    : string :=
  substring 0 col text +:+ newText
  +:+ substring col (String.length text - col) text.

(** ** A sample document

    The document used by the closed examples:
<<
    0: f : Int -> Int
    1: f a =
    2:     let
    3:         g b = x
    4:     in
    5:     f y
>>
    with simple stand-ins for the collaborators. *)

Module Sample.
Definition leaf (ty text : string) (l c1 c2 : nat) : option string * Tree :=
  (None, mkTree ty text (mkPosition l c1) (mkPosition l c2) []).

Definition field (name : string) (c : option string * Tree)
    : option string * Tree := (Some name, c.2).

Definition return_type : option string * Tree :=
  leaf "type_ref" "Int" 0 11 14.

Definition signature : Tree :=
  mkTree "type_expression" "Int -> Int" (mkPosition 0 4) (mkPosition 0 14)
    [ leaf "type_ref" "Int" 0 4 7;
      leaf "arrow" "->" 0 8 10;
      return_type ].

Definition annotation : Tree :=
  mkTree "type_annotation" "f : Int -> Int" (mkPosition 0 0)
    (mkPosition 0 14)
    [ leaf "lower_case_identifier" "f" 0 0 1;
      leaf "colon" ":" 0 2 3;
      (Some "typeExpression", signature) ].

Definition usage_x : Tree :=
  mkTree "value_expr" "x" (mkPosition 3 14) (mkPosition 3 15)
    [ (Some "name",
       mkTree "value_qid" "x" (mkPosition 3 14) (mkPosition 3 15)
         [ leaf "lower_case_identifier" "x" 3 14 15 ]) ].

Definition decl_g : Tree :=
  mkTree "value_declaration" "g b = x" (mkPosition 3 8) (mkPosition 3 15)
    [ (Some "functionDeclarationLeft",
       mkTree "function_declaration_left" "g b" (mkPosition 3 8)
         (mkPosition 3 11)
         [ leaf "lower_case_identifier" "g" 3 8 9;
           field "pattern" (leaf "lower_pattern" "b" 3 10 11) ]);
      leaf "eq" "=" 3 12 13;
      (Some "body", usage_x) ].

Definition call_f : Tree :=
  mkTree "function_call_expr" "f y" (mkPosition 5 4) (mkPosition 5 7)
    [ (Some "target",
       mkTree "value_expr" "f" (mkPosition 5 4) (mkPosition 5 5)
         [ (Some "name",
            mkTree "value_qid" "f" (mkPosition 5 4) (mkPosition 5 5)
              [ leaf "lower_case_identifier" "f" 5 4 5 ]) ]);
      (Some "arg",
       mkTree "value_expr" "y" (mkPosition 5 6) (mkPosition 5 7)
         [ (Some "name",
            mkTree "value_qid" "y" (mkPosition 5 6) (mkPosition 5 7)
              [ leaf "lower_case_identifier" "y" 5 6 7 ]) ]) ].

Definition let_text : string :=
  "let" +:+ newline +:+ "        g b = x" +:+ newline +:+ "    in"
  +:+ newline +:+ "    f y".

Definition let_in : Tree :=
  mkTree "let_in_expr" let_text (mkPosition 2 4) (mkPosition 5 7)
    [ leaf "let" "let" 2 4 7;
      (Some "valueDeclaration", decl_g);
      leaf "in" "in" 4 4 6;
      (Some "body", call_f) ].

Definition name_f : option string * Tree :=
  leaf "lower_case_identifier" "f" 1 0 1.

Definition pattern_a : option string * Tree :=
  field "pattern" (leaf "lower_pattern" "a" 1 2 3).

Definition left_f : Tree :=
  mkTree "function_declaration_left" "f a" (mkPosition 1 0)
    (mkPosition 1 3) [ name_f; pattern_a ].

Definition decl_f : Tree :=
  mkTree "value_declaration" ("f a =" +:+ newline +:+ "    " +:+ let_text)
    (mkPosition 1 0) (mkPosition 5 7)
    [ (Some "functionDeclarationLeft", left_f);
      leaf "eq" "=" 1 4 5;
      (Some "body", let_in) ].

Definition file : Tree :=
  mkTree "file"
    ("f : Int -> Int" +:+ newline +:+ "f a =" +:+ newline +:+ "    "
     +:+ let_text)
    (mkPosition 0 0) (mkPosition 5 7)
    [ (None, annotation); (None, decl_f) ].

Definition uri : string := "file:///Main.elm".
Definition source : SourceFile := mkSourceFile uri file.

(** Lexicographic order of positions. *)
Definition pos_leb (p q : Position) : bool :=
  (line p <? line q) || ((line p =? line q) && (character p <=? character q)).

(** The span of a node: from its start, up to its end (excluded). *)
Definition spans (t : Tree) (p : Position) : bool :=
  pos_leb (t_start t) p && negb (pos_leb (t_end t) p).

(** The deepest node whose span holds the position. *)
Fixpoint descend (t : Tree) (up : list (Tree * nat)) (p : Position)
    : SyntaxNode :=
  match t with
  | mkTree _ _ _ _ children =>
      let fix among (cs : list (option string * Tree)) (i : nat)
          : option SyntaxNode :=
        match cs with
        | [] => None
        | (_, c) :: cs' =>
            if spans c p then Some (descend c ((t, i) :: up) p)
            else among cs' (S i)
        end in
      default (mkNode t up) (among children 0)
  end.

Definition children_of (n : SyntaxNode) : list SyntaxNode :=
  omap (Node.child n) (seq 0 (length (t_children (sn_tree n)))).

Definition treeUtils : TreeUtils :=
  {| getNamedDescendantForPosition root p :=
       descend (sn_tree root) (sn_up root) p;
     getNamedDescendantForRange sf r := descend (sf_tree sf) [] (r_start r);
     findParentOfType ty n :=
       head (List.filter (fun a => String.eqb (Node.type a) ty)
                         (n :: Node.ancestors n));
     getTypeAnnotation n :=
       if String.eqb (Node.type n) "value_declaration" then
         match Node.previousSibling n with
         | Some s =>
             if String.eqb (Node.type s) "type_annotation" then Some s
             else None
         | None => None
         end
       else None;
     isExposedFunction _ _ := false;
     isExposedTypeOrTypeAlias _ _ := false;
     findAllTopLevelFunctionDeclarations t :=
       Some (List.filter
               (fun a => String.eqb (Node.type a) "value_declaration")
               (children_of (rootNode t))) |}.

Definition refactorEditUtils : RefactorEditUtils :=
  {| unexposedValueInModule _ _ := None;
     exposeValueInModule _ name :=
       Some (TextEdits.insert (mkPosition 0 0) name);
     findLineNumberAfterCurrentFunction _ := None;
     createTopLevelFunction l name ty _ :=
       Some (TextEdits.insert (mkPosition l 0) (name +:+ " : " +:+ ty)) |}.

Definition diagnosticsModule : DiagnosticsModule :=
  {| diagnosticsEquals a b := bool_decide (a = b);
     MissingTypeAnnotation_code := "missing_type_annotation";
     MissingValue_code := "missing_value" |}.

Definition checker : TypeChecker :=
  {| ElmType := string;
     findType n :=
       if String.eqb (Node.text n) "x" then "Maybe Int" else "Int";
     typeToString ty _ := ty |}.

Definition forest : Forest :=
  {| getTree u := if String.eqb u uri then Some file else None;
     getByUri u := if String.eqb u uri then Some source else None |}.

Definition workspace (ds : list Diagnostic) : Program :=
  {| getForest := forest;
     getTypeChecker := checker;
     getDiagnostics _ := ds |}.

Definition services : Services :=
  {| moveFunctionRefactoringSupport := false;
     elmMake_onCodeAction _ := [];
     elmDiagnostics_onCodeAction _ := [] |}.

Definition at_ (l c1 c2 : nat) : Range :=
  mkRange (mkPosition l c1) (mkPosition l c2).

(** The usage of [x] on line 3 and the node of the tree it is. *)
Definition x_range : Range := at_ 3 14 15.
Definition x_node : SyntaxNode := descend file [] (mkPosition 3 14).
Definition f_node : SyntaxNode := descend file [] (mkPosition 1 0).
(** The call of [f] on line 5. *)
Definition f_usage : SyntaxNode := descend file [] (mkPosition 5 4).

Definition f_declaration : SyntaxNode := mkNode decl_f [(file, 1)].
Definition f_return_type : SyntaxNode :=
  mkNode return_type.2 [(signature, 2); (annotation, 2); (file, 0)].
Definition f_pattern : SyntaxNode :=
  mkNode pattern_a.2 [(left_f, 1); (decl_f, 0); (file, 1)].
Definition g_declaration : SyntaxNode :=
  mkNode decl_g [(let_in, 1); (decl_f, 2); (file, 1)].

(** The two unbound names of the document, as reported. *)
Definition missing_x : Diagnostic :=
  mkDiagnostic (CodeStr "missing_value") x_range "Cannot find x".
Definition missing_y : Diagnostic :=
  mkDiagnostic (CodeStr "missing_value") (at_ 5 6 7) "Cannot find y".

(** The local binding [g] has no annotation. *)
Definition unannotated_g : Diagnostic :=
  mkDiagnostic (CodeStr "missing_type_annotation") (at_ 3 8 9)
               "Missing type annotation: g".

(** A request at [r] with the context diagnostics [context], for the
    document with the diagnostics [reported]. *)
Definition request (r : Range) (context : list (option Diagnostic))
    (reported : list Diagnostic) : Params :=
  mkParams uri r context (workspace reported) source.

(** The same for a document the forest does not know. *)
Definition unknownRequest (r : Range) (context : list (option Diagnostic))
    : Params :=
  mkParams "file:///Unknown.elm" r context (workspace []) source.

(** The registry after the provider of this development registered. *)
Definition registry : MultiMap.t Registration :=
  CodeActionProvider.Static.registerCodeAction
    (@IntroduceNewFunctionArgument.registration treeUtils diagnosticsModule)
    MultiMap.empty.

(** A provider with a fix-all action, in the way providers build one:
    it replaces the reported range by an underscore. *)
Definition underscoreEdit (d : Diagnostic) : TextEdit :=
  mkTextEdit (d_range d) "_".

Definition underscoreProvider : Registration :=
  mkRegistration ["missing_value"] "replace_by_underscore"
    (fun params =>
       Some [CodeActionProvider.Static.getCodeAction params
               "Replace by underscore"
               [mkTextEdit (range params) "_"]])
    (fun params =>
       Some (CodeActionProvider.Static.getFixAllCodeAction
               "Replace all by underscore" params ["missing_value"]
               (fun edits d => edits ++ [underscoreEdit d]))).

Definition underscoreRegistry : MultiMap.t Registration :=
  CodeActionProvider.Static.registerCodeAction underscoreProvider
                                               MultiMap.empty.

(** External sources that report one action each. *)
Definition named (title : string) : CodeAction :=
  mkCodeAction title (Some QuickFix) None None None None.

Definition busyServices : Services :=
  {| moveFunctionRefactoringSupport := true;
     elmMake_onCodeAction _ := [named "from elm make"];
     elmDiagnostics_onCodeAction _ := [named "from elm-ls"] |}.

(** The title of the provider's action for the function [name]. *)
Definition quoted (name : string) : string :=
  "Add new parameter to " +:+ dquote +:+ name +:+ dquote.

(** A diagnostic with a numeric code and one with a code that no
    provider registered for. *)
Definition code42 : Diagnostic :=
  mkDiagnostic (CodeNum 42) (at_ 1 0 1) "numbered".

Definition unregistered : Diagnostic :=
  mkDiagnostic (CodeStr "UnregisteredCode") (at_ 3 14 15)
               "nobody handles this".
End Sample.

(** ** Vocabulary of the statements about calls, refactors and the registry *)

Definition eventRegistration (e : Event) : Registration :=
  match e with
  | CalledGetCodeActions reg _ => reg
  | CalledGetFixAllCodeAction reg _ => reg
  end.

Definition eventParams (e : Event) : Params :=
  match e with
  | CalledGetCodeActions _ p => p
  | CalledGetFixAllCodeAction _ p => p
  end.

(** The log a computation leaves behind. *)
Definition logAfter {A} (o : Outcome A) : list Event :=
  match o with
  | Returned _ w => w_log w
  | Threw w => w_log w
  end.

(** A log in which every call of [getFixAllCodeAction] directly follows a
    call of [getCodeActions] of the same provider on the same [params]. *)
Inductive callsPaired : list Event -> Prop :=
| paired_nil : callsPaired []
| paired_single reg p rest :
    callsPaired rest -> callsPaired (CalledGetCodeActions reg p :: rest)
| paired_both reg p rest :
    callsPaired rest ->
    callsPaired (CalledGetCodeActions reg p
                 :: CalledGetFixAllCodeAction reg p :: rest).

(** The calls made for one context diagnostic: by a provider registered
    for its code, on the [params] object with the range of the
    diagnostic. *)
Definition calledFor (errorCodeToRegistrationMap : MultiMap.t Registration)
    (p : Params) (ds : list (option Diagnostic)) (e : Event) : Prop :=
  exists d code,
    In (Some d) ds
    /\ d_code d = CodeStr code
    /\ In (eventRegistration e)
          (MultiMap.getAll errorCodeToRegistrationMap code)
    /\ eventParams e = set_range p (d_range d).

(** An edit that replaces nothing: its range is empty. *)
Definition isInsertion (e : TextEdit) : Prop :=
  r_start (te_range e) = r_end (te_range e).

(** How often a code is listed among the codes of a registration. *)
Definition occurrences (code : string) (codes : list string) : nat :=
  length (List.filter (String.eqb code) codes).

(** The edits of an action for a document. *)
Definition editsFor (uri : string) (action : CodeAction)
    : option (list TextEdit) :=
  match ca_changes action with
  | Some [(u, edits)] => if String.eqb u uri then Some edits else None
  | _ => None
  end.

(** ** Two more small documents

    [h = z], a declaration without parameters, and
    [type alias Id = Int], for the type refactors. *)

Module Small.
Definition name_h : option string * Tree :=
  Sample.leaf "lower_case_identifier" "h" 0 0 1.

Definition left_h : Tree :=
  mkTree "function_declaration_left" "h" (mkPosition 0 0) (mkPosition 0 1)
    [ name_h ].

Definition usage_z : Tree :=
  mkTree "value_expr" "z" (mkPosition 0 4) (mkPosition 0 5)
    [ (Some "name",
       mkTree "value_qid" "z" (mkPosition 0 4) (mkPosition 0 5)
         [ Sample.leaf "lower_case_identifier" "z" 0 4 5 ]) ].

Definition decl_h : Tree :=
  mkTree "value_declaration" "h = z" (mkPosition 0 0) (mkPosition 0 5)
    [ (Some "functionDeclarationLeft", left_h);
      Sample.leaf "eq" "=" 0 2 3;
      (Some "body", usage_z) ].

Definition constants : Tree :=
  mkTree "file" "h = z" (mkPosition 0 0) (mkPosition 0 5) [ (None, decl_h) ].

Definition h_declaration : SyntaxNode := mkNode decl_h [(constants, 0)].
Definition h_left : SyntaxNode :=
  mkNode left_h [(decl_h, 0); (constants, 0)].
Definition z_node : SyntaxNode :=
  Sample.descend constants [] (mkPosition 0 4).

Definition alias_Id : Tree :=
  mkTree "type_alias_declaration" "type alias Id = Int" (mkPosition 0 0)
    (mkPosition 0 19)
    [ Sample.leaf "type" "type" 0 0 4;
      Sample.leaf "alias" "alias" 0 5 10;
      (Some "name",
       mkTree "upper_case_identifier" "Id" (mkPosition 0 11)
         (mkPosition 0 13) []);
      Sample.leaf "eq" "=" 0 14 15;
      (Some "typeExpression",
       mkTree "type_expression" "Int" (mkPosition 0 16) (mkPosition 0 19)
         [ Sample.leaf "type_ref" "Int" 0 16 19 ]) ].

Definition types : Tree :=
  mkTree "file" "type alias Id = Int" (mkPosition 0 0) (mkPosition 0 19)
    [ (None, alias_Id) ].

Definition typesUri : string := "file:///Types.elm".
Definition typesSource : SourceFile := mkSourceFile typesUri types.

Definition typesForest : Forest :=
  {| getTree u := if String.eqb u typesUri then Some types else None;
     getByUri u := if String.eqb u typesUri then Some typesSource else None |}.

Definition typesWorkspace : Program :=
  {| getForest := typesForest;
     getTypeChecker := Sample.checker;
     getDiagnostics _ := [] |}.

(** A request in the types document. *)
Definition typesRequest (r : Range) : Params :=
  mkParams typesUri r [] typesWorkspace typesSource.

(** A request in the constants document, which the forest does not hold. *)
Definition constantsRequest (r : Range) : Params :=
  mkParams "file:///Constants.elm" r [] (Sample.workspace [])
           (mkSourceFile "file:///Constants.elm" constants).
End Small.

(** ** A declaration written without a space before [=]

    The one-line document [k a= z]. *)

Module Tight.
Definition name_k : option string * Tree :=
  Sample.leaf "lower_case_identifier" "k" 0 0 1.

Definition pattern_a : option string * Tree :=
  Sample.field "pattern" (Sample.leaf "lower_pattern" "a" 0 2 3).

Definition left_k : Tree :=
  mkTree "function_declaration_left" "k a" (mkPosition 0 0) (mkPosition 0 3)
    [ name_k; pattern_a ].

Definition usage_z : Tree :=
  mkTree "value_expr" "z" (mkPosition 0 5) (mkPosition 0 6)
    [ (Some "name",
       mkTree "value_qid" "z" (mkPosition 0 5) (mkPosition 0 6)
         [ Sample.leaf "lower_case_identifier" "z" 0 5 6 ]) ].

Definition decl_k : Tree :=
  mkTree "value_declaration" "k a= z" (mkPosition 0 0) (mkPosition 0 6)
    [ (Some "functionDeclarationLeft", left_k);
      Sample.leaf "eq" "=" 0 3 4;
      (Some "body", usage_z) ].

Definition file : Tree :=
  mkTree "file" "k a= z" (mkPosition 0 0) (mkPosition 0 6) [ (None, decl_k) ].

Definition uri : string := "file:///Tight.elm".

Definition k_left : SyntaxNode := mkNode left_k [(decl_k, 0); (file, 0)].
Definition z_node : SyntaxNode := Sample.descend file [] (mkPosition 0 5).

(** A request on the unbound [z]. *)
Definition request : Params :=
  mkParams uri (Sample.at_ 0 5 6) [] (Sample.workspace [])
           (mkSourceFile uri file).
End Tight.

(** * Properties *)

(** ** Strings *)

Lemma prefix_empty (s : string) : String.prefix "" s = true.
Proof. by destruct s. Qed.

Lemma includes_space (s : string) :
  includes s " " = true <-> contains_space s.
Proof.
  unfold contains_space. induction s as [|a s IH]; cbn -[ascii_dec].
  - split; [discriminate | tauto].
  - destruct (ascii_dec " " a) as [<-|Hne].
    + rewrite prefix_empty. cbn. tauto.
    + cbn. rewrite IH. split; [tauto|]. intros [Heq|Hin]; [|done].
      by destruct Hne.
Qed.

Lemma includes_space_false (s : string) :
  includes s " " = false <-> ~ contains_space s.
Proof.
  rewrite <- includes_space. destruct (includes s " "); split; try done.
Qed.

Lemma length_append (s1 s2 : string) :
  String.length (s1 +:+ s2) = String.length s1 + String.length s2.
Proof. induction s1 as [|a s1 IH]; simpl; [done | by rewrite IH]. Qed.

Lemma append_assoc (s1 s2 s3 : string) :
  (s1 +:+ s2) +:+ s3 = s1 +:+ (s2 +:+ s3).
Proof.
  induction s1 as [|a s1 IH]; [reflexivity|].
  change (String a ((s1 +:+ s2) +:+ s3) = String a (s1 +:+ (s2 +:+ s3))).
  by rewrite IH.
Qed.

Lemma paren_neq (s : string) : ("(" +:+ s +:+ ")")%string <> s.
Proof.
  intros H. apply (f_equal String.length) in H.
  rewrite !length_append in H. simpl in H. lia.
Qed.

(** ** The provider's edits *)

Section ProviderProperties.
Context {TU : TreeUtils} {DM : DiagnosticsModule}.
Import IntroduceNewFunctionArgument.

Lemma position_eta (p : Position) : mkPosition (line p) (character p) = p.
Proof. by destruct p. Qed.



(** What [getActionsForValueDeclaration] returns once the last pattern and
    the signature's return type are known. *)
Lemma getActionsForValueDeclaration_eq
    (valueDeclaration nodeAtPosition lastPattern : SyntaxNode)
    (params : Params) :
  Node.firstChild valueDeclaration ≫= Node.lastChild = Some lastPattern ->
  getActionsForValueDeclaration valueDeclaration nodeAtPosition params =
  Some (CodeActionProvider.Static.getCodeAction params
          ("Add new parameter to " +:+ dquote
           +:+ default "undefined"
                 (Node.text <$> (Node.firstChild valueDeclaration
                                   ≫= Node.firstChild))
           +:+ dquote)
          (parameterEdit (sn_tree lastPattern) nodeAtPosition
           :: match lastArgumentType valueDeclaration with
              | Some returnType =>
                  [TextEdits.insert (Node.startPosition returnType)
                     (typeStringWithParen
                        (renderedType nodeAtPosition params) +:+ " -> ")]
              | None => []
              end)).
Proof.
  intros Hlast. unfold getActionsForValueDeclaration.
  rewrite Hlast. fold (lastArgumentType valueDeclaration).
  destruct (lastArgumentType valueDeclaration) as [returnType|];
    [rewrite position_eta|]; reflexivity.
Qed.

Lemma substring_prefix (s1 s2 : string) :
  substring 0 (String.length s1) (s1 +:+ s2) = s1.
Proof.
  induction s1 as [|a s1 IH]; simpl; [by destruct s2 | by rewrite IH].
Qed.

Lemma substring_all (s : string) : substring 0 (String.length s) s = s.
Proof. induction s as [|a s IH]; simpl; [done | by rewrite IH]. Qed.

Lemma substring_suffix (s1 s2 : string) :
  substring (String.length s1) (String.length s2) (s1 +:+ s2) = s2.
Proof.
  induction s1 as [|a s1 IH]; [apply substring_all | exact IH].
Qed.



(** C4. In the signature edit of the provider the rendered inferred type
    is wrapped in parentheses exactly when it contains a space
    character, and is inserted as it is exactly when it contains none. *)
Theorem signature_type_parenthesized
    (valueDeclaration nodeAtPosition lastPattern returnType : SyntaxNode)
    (params : Params) :
  Node.firstChild valueDeclaration ≫= Node.lastChild = Some lastPattern ->
  lastArgumentType valueDeclaration = Some returnType ->
  exists action valueEdit inserted,
    getActionsForValueDeclaration valueDeclaration nodeAtPosition params
    = Some action
    /\ ca_changes action =
       Some [(sf_uri (sourceFile params),
              [valueEdit;
               TextEdits.insert (Node.startPosition returnType)
                                (inserted +:+ " -> ")])]
    /\ (inserted = "(" +:+ renderedType nodeAtPosition params +:+ ")"
        <-> contains_space (renderedType nodeAtPosition params))
    /\ (inserted = renderedType nodeAtPosition params
        <-> ~ contains_space (renderedType nodeAtPosition params)).
Proof.
  intros Hlast Hret.
  exists (CodeActionProvider.Static.getCodeAction params
            ("Add new parameter to " +:+ dquote
             +:+ default "undefined"
                   (Node.text <$> (Node.firstChild valueDeclaration
                                     ≫= Node.firstChild))
             +:+ dquote)
            [parameterEdit (sn_tree lastPattern) nodeAtPosition;
             TextEdits.insert (Node.startPosition returnType)
               (typeStringWithParen (renderedType nodeAtPosition params)
                +:+ " -> ")]),
    (parameterEdit (sn_tree lastPattern) nodeAtPosition),
    (typeStringWithParen (renderedType nodeAtPosition params)).
  split; [|split; [done|]].
  - rewrite (getActionsForValueDeclaration_eq _ _ lastPattern) by done.
    by rewrite Hret.
  - unfold typeStringWithParen.
    destruct (includes (renderedType nodeAtPosition params) " ") eqn:Hinc.
    + apply includes_space in Hinc. split; split; try done.
      intros Heq. by apply paren_neq in Heq.
    + apply includes_space_false in Hinc. split; split; try done.
      intros Heq. symmetry in Heq. by apply paren_neq in Heq.
Qed.

Lemma ancestors_unfold (n : SyntaxNode) :
  Node.ancestors n =
  match Node.parent n with
  | Some p => p :: Node.ancestors p
  | None => []
  end.
Proof.
  unfold Node.ancestors, Node.parent.
  destruct (sn_up n) as [|[p i] up]; reflexivity.
Qed.

Lemma omap_filter_Forall2 {A B} (f : A -> option B) (l : list A) :
  Forall2 (fun x y => f x = Some y)
          (List.filter (fun x => truthy (f x)) l) (omap f l).
Proof.
  induction l as [|x l IH]; simpl; [constructor|].
  destruct (f x) as [y|] eqn:Hfx; simpl; [|exact IH].
  constructor; [exact Hfx | exact IH].
Qed.

Lemma getActionsForValueDeclaration_title
    (valueDeclaration nodeAtPosition : SyntaxNode) (params : Params)
    (action : CodeAction) :
  getActionsForValueDeclaration valueDeclaration nodeAtPosition params
  = Some action ->
  ca_title action = newParameterTitle valueDeclaration
  /\ hasLastPattern valueDeclaration = true.
Proof.
  unfold hasLastPattern.
  destruct (Node.firstChild valueDeclaration ≫= Node.lastChild)
    as [lastPattern|] eqn:Hlast.
  - rewrite (getActionsForValueDeclaration_eq _ _ lastPattern) by done.
    intros [= <-]. done.
  - unfold getActionsForValueDeclaration. by rewrite Hlast.
Qed.

(** C10. When the node at the request range is a bare lower-case
    identifier usage, [getActions] returns one "Add new parameter" action
    for each enclosing [value_declaration] ancestor that has a last
    pattern, in the order of the ancestor chain, nearest ancestor first:
    the list of ancestors starts at the parent and continues with the
    ancestors of the parent. *)
Theorem one_action_per_enclosing_declaration
    (params : Params) (range : Range) :
  let nodeAtPosition :=
    getNamedDescendantForRange (sourceFile params) range in
  isBareValueUsage nodeAtPosition = true ->
  (forall n, Node.ancestors n =
             match Node.parent n with
             | Some p => p :: Node.ancestors p
             | None => []
             end)
  /\ exists actions,
      getActions params range = Some actions
      /\ Forall2
           (fun valueDeclaration action =>
              getActionsForValueDeclaration valueDeclaration nodeAtPosition
                                            params = Some action
              /\ ca_title action = newParameterTitle valueDeclaration)
           (List.filter hasLastPattern
              (List.filter isValueDeclaration
                           (Node.ancestors nodeAtPosition)))
           actions.
Proof.
  intros nodeAtPosition Husage. split; [apply ancestors_unfold|].
  unfold getActions. fold nodeAtPosition. rewrite Husage.
  eexists. split; [reflexivity|].
  unfold getAllAncestorsOfType. fold isValueDeclaration.
  set (f := fun valueDeclaration =>
              getActionsForValueDeclaration valueDeclaration nodeAtPosition
                                            params).
  assert (Hext : forall l,
             List.filter hasLastPattern l
             = List.filter (fun x => truthy (f x)) l).
  { intros l. apply List.filter_ext. intros vd. unfold hasLastPattern, f.
    unfold getActionsForValueDeclaration.
    by destruct (Node.firstChild vd ≫= Node.lastChild). }
  rewrite Hext.
  eapply Forall2_impl; [apply omap_filter_Forall2|].
  intros vd action Hf. split; [exact Hf|].
  by apply getActionsForValueDeclaration_title in Hf as [-> _].
Qed.
End ProviderProperties.

(** ** The dispatcher *)

Section DispatcherProperties.
Context {TU : TreeUtils} {RU : RefactorEditUtils} {DM : DiagnosticsModule}.
Variable this : Services.
Variable errorCodeToRegistrationMap : MultiMap.t Registration.
Import CodeActionProvider.

Local Abbreviation diagnosticActions :=
  (diagnosticActions errorCodeToRegistrationMap).
Local Abbreviation onCodeAction :=
  (onCodeAction this errorCodeToRegistrationMap).

Ltac run := unfold mbind, M_bind, mret, M_ret, getParams, assignRange, emit,
              throwTypeError; simpl.

Lemma set_range_same (p : Params) : set_range p (range p) = p.
Proof. by destruct p. Qed.

Lemma set_range_twice (p : Params) (r r' : Range) :
  set_range (set_range p r) r' = set_range p r'.
Proof. reflexivity. Qed.

Lemma world_eta (w : World) : mkWorld (w_params w) (w_log w) = w.
Proof. by destruct w. Qed.

(** The gate of the fix-all call, as the condition of the [if]. *)
Lemma fixAllOffered_iff (diagnostic : Diagnostic) (reg : Registration)
    (params : Params) :
  (0 <? length (singleFixActions diagnostic reg params))
  && hasOtherWithSameCode params diagnostic = true
  <-> fixAllOffered diagnostic reg params.
Proof.
  unfold fixAllOffered, hasOtherWithSameCode, singleFixActions.
  rewrite andb_true_iff, Nat.ltb_lt, length_map, existsb_exists.
  split.
  - intros [Hlen (diag & Hin & Hd)]. split.
    + destruct (getCodeActions reg params) as [[|a l]|]; simpl in Hlen;
        try lia. eauto.
    + exists diag. apply andb_true_iff in Hd as [Hne Hcode].
      apply negb_true_iff in Hne. unfold code_strict_eq in Hcode.
      apply bool_decide_eq_true in Hcode. done.
  - intros [(a & l & ->) (diag & Hin & Hne & Hcode)]. split; [simpl; lia|].
    exists diag. split; [done|]. rewrite Hne. simpl.
    unfold code_strict_eq. by apply bool_decide_eq_true.
Qed.

Lemma registrationActions_offered (diagnostic : Diagnostic)
    (reg : Registration) (w : World) :
  fixAllOffered diagnostic reg (w_params w) ->
  registrationActions diagnostic reg w =
  Returned (singleFixActions diagnostic reg (w_params w)
            ++ option_list (getFixAllCodeAction reg (w_params w)))
           (mkWorld (w_params w)
              (w_log w ++ [CalledGetCodeActions reg (w_params w);
                           CalledGetFixAllCodeAction reg (w_params w)])).
Proof.
  intros Hgate. apply fixAllOffered_iff in Hgate.
  unfold registrationActions. run.
  unfold singleFixActions in Hgate. rewrite Hgate. run.
  rewrite <- app_assoc. simpl.
  by destruct (getFixAllCodeAction reg (w_params w));
    simpl; rewrite ?app_nil_r.
Qed.

Lemma registrationActions_not_offered (diagnostic : Diagnostic)
    (reg : Registration) (w : World) :
  ~ fixAllOffered diagnostic reg (w_params w) ->
  registrationActions diagnostic reg w =
  Returned (singleFixActions diagnostic reg (w_params w))
           (mkWorld (w_params w)
              (w_log w ++ [CalledGetCodeActions reg (w_params w)])).
Proof.
  intros Hgate. rewrite <- fixAllOffered_iff in Hgate.
  apply not_true_is_false in Hgate.
  unfold registrationActions. run.
  unfold singleFixActions in Hgate. by rewrite Hgate.
Qed.

Lemma fixAllOffered_dec (diagnostic : Diagnostic) (reg : Registration)
    (params : Params) :
  fixAllOffered diagnostic reg params
  \/ ~ fixAllOffered diagnostic reg params.
Proof.
  rewrite <- fixAllOffered_iff.
  destruct ((0 <? length (singleFixActions diagnostic reg params))
            && hasOtherWithSameCode params diagnostic); auto.
Qed.

(** One registration: the call of [getCodeActions] is always logged, the
    world keeps its [params], and nothing throws. *)
Lemma registrationActions_returns (diagnostic : Diagnostic)
    (reg : Registration) (w : World) :
  exists acts new,
    registrationActions diagnostic reg w
    = Returned acts (mkWorld (w_params w) (w_log w ++ new))
    /\ (fixAllCalled reg new <-> fixAllOffered diagnostic reg (w_params w))
    /\ (fixAllOffered diagnostic reg (w_params w) ->
        acts = singleFixActions diagnostic reg (w_params w)
               ++ option_list (getFixAllCodeAction reg (w_params w)))
    /\ (~ fixAllOffered diagnostic reg (w_params w) ->
        acts = singleFixActions diagnostic reg (w_params w)).
Proof.
  destruct (fixAllOffered_dec diagnostic reg (w_params w)) as [Hg|Hg].
  - do 2 eexists. split; [by apply registrationActions_offered|].
    split; [|split; [done | by intros []]].
    split; [done|]. intros _. exists (w_params w). simpl. auto.
  - do 2 eexists. split; [by apply registrationActions_not_offered|].
    split; [|split; [by intros ? | done]].
    split; [|by intros ?]. intros (p & [Hin|[]]). discriminate.
Qed.

Lemma flatMapM_registrationActions_returns (diagnostic : Diagnostic)
    (regs : list Registration) (w : World) :
  exists acts new,
    flatMapM (registrationActions diagnostic) regs w
    = Returned acts (mkWorld (w_params w) (w_log w ++ new)).
Proof.
  revert w. induction regs as [|reg regs IH]; intros w; simpl.
  - exists [], []. run. by rewrite app_nil_r, world_eta.
  - destruct (registrationActions_returns diagnostic reg w)
      as (acts & new & Hreg & _).
    destruct (IH (mkWorld (w_params w) (w_log w ++ new)))
      as (acts' & new' & Hrest).
    exists (acts ++ acts'), (new ++ new'). run. rewrite Hreg, Hrest.
    simpl. by rewrite app_assoc.
Qed.

(** With the gate closed for every registration, the loop returns the
    single-fix actions only and logs no fix-all call. *)
Lemma flatMapM_registrationActions_single (diagnostic : Diagnostic)
    (regs : list Registration) (w : World) :
  (forall reg, In reg regs ->
               ~ fixAllOffered diagnostic reg (w_params w)) ->
  flatMapM (registrationActions diagnostic) regs w
  = Returned
      (flatMap regs (fun reg => singleFixActions diagnostic reg (w_params w)))
      (mkWorld (w_params w)
         (w_log w
          ++ map (fun reg => CalledGetCodeActions reg (w_params w)) regs)).
Proof.
  revert w. induction regs as [|reg regs IH]; intros w Hclosed; simpl.
  - run. by rewrite app_nil_r, world_eta.
  - run. rewrite registrationActions_not_offered
      by (apply Hclosed; simpl; auto).
    rewrite IH by (intros r Hr; apply Hclosed; simpl; auto).
    simpl. unfold flatMap. simpl. by rewrite <- app_assoc.
Qed.

Lemma diagnosticActions_string (diagnostic : Diagnostic) (code : string)
    (w : World) :
  d_code diagnostic = CodeStr code ->
  diagnosticActions (Some diagnostic) w
  = flatMapM (registrationActions diagnostic)
      (MultiMap.getAll errorCodeToRegistrationMap code)
      (mkWorld (set_range (w_params w) (d_range diagnostic)) (w_log w)).
Proof.
  intros Hcode. unfold CodeActionProvider.diagnosticActions.
  by rewrite Hcode.
Qed.

Lemma flatMapM_registrationActions_parts (diagnostic : Diagnostic)
    (regs : list Registration) (w : World) :
  exists parts new,
    flatMapM (registrationActions diagnostic) regs w
    = Returned (concat parts) (mkWorld (w_params w) (w_log w ++ new))
    /\ Forall2 (isProviderPart diagnostic (w_params w)) regs parts.
Proof.
  revert w. induction regs as [|reg regs IH]; intros w.
  - exists [], []. cbn [flatMapM concat]. unfold mret, M_ret.
    rewrite app_nil_r, world_eta. split; [done | constructor].
  - destruct (registrationActions_returns diagnostic reg w)
      as (acts & new & Hreg & _ & Hoffered & Hnot).
    destruct (IH (mkWorld (w_params w) (w_log w ++ new)))
      as (parts & new' & Hrest & Hparts).
    exists (acts :: parts), (new ++ new'). split.
    + cbn [flatMapM concat]. unfold mbind, M_bind. rewrite Hreg, Hrest.
      unfold mret, M_ret. cbn [w_params w_log]. by rewrite app_assoc.
    + constructor; [by split | exact Hparts].
Qed.

(** C2, as amended.  (1) For a provider called for a diagnostic, its
    [getFixAllCodeAction] is called if and only if its [getCodeActions]
    returned at least one action and a diagnostic of the document that
    is not identical to the triggering one (as [diagnosticsEquals] judges)
    has the same code; its result, when there is one, follows the
    single-fix actions.  (2) When every diagnostic of the document with
    the code of the triggering diagnostic is identical to it, the
    dispatcher calls no [getFixAllCodeAction] and returns the single-fix
    actions only.  (3) When another, not identical diagnostic of the
    document has the code, the code has exactly one registered provider,
    and that provider returns at least one single-fix action and a
    fix-all action, the dispatcher returns the single-fix actions followed
    by exactly that one fix-all action.  (4) In every case the dispatch
    for the diagnostic returns, for the providers registered for its code
    in registration order, what (1) gives for each, concatenated. *)
Theorem fix_all_gating (diagnostic : Diagnostic) (code : string)
    (reg : Registration) (w : World) :
  d_code diagnostic = CodeStr code ->
  In reg (MultiMap.getAll errorCodeToRegistrationMap code) ->
  let params := set_range (w_params w) (d_range diagnostic) in
  (exists acts new,
      registrationActions diagnostic reg (mkWorld params (w_log w))
      = Returned acts (mkWorld params (w_log w ++ new))
      /\ (fixAllCalled reg new <-> fixAllOffered diagnostic reg params)
      /\ (fixAllOffered diagnostic reg params ->
          acts = singleFixActions diagnostic reg params
                 ++ option_list (getFixAllCodeAction reg params))
      /\ (~ fixAllOffered diagnostic reg params ->
          acts = singleFixActions diagnostic reg params))
  /\ ((forall diag,
         In diag (getDiagnostics (program params) (sourceFile params)) ->
         d_code diag = d_code diagnostic ->
         diagnosticsEquals diag diagnostic = true) ->
      exists new,
        diagnosticActions (Some diagnostic) w
        = Returned
            (flatMap (MultiMap.getAll errorCodeToRegistrationMap code)
                     (fun r => singleFixActions diagnostic r params))
            (mkWorld params (w_log w ++ new))
        /\ forall e, In e new -> isFixAllCall e = false)
  /\ (forall other a l fixAll,
        MultiMap.getAll errorCodeToRegistrationMap code = [reg] ->
        In other (getDiagnostics (program params) (sourceFile params)) ->
        d_code other = d_code diagnostic ->
        diagnosticsEquals other diagnostic = false ->
        getCodeActions reg params = Some (a :: l) ->
        getFixAllCodeAction reg params = Some fixAll ->
        exists w',
          diagnosticActions (Some diagnostic) w
          = Returned (singleFixActions diagnostic reg params ++ [fixAll]) w'
          /\ singleFixActions diagnostic reg params <> [])
  /\ (exists parts new,
        diagnosticActions (Some diagnostic) w
        = Returned (concat parts) (mkWorld params (w_log w ++ new))
        /\ Forall2 (isProviderPart diagnostic params)
             (MultiMap.getAll errorCodeToRegistrationMap code) parts).
Proof.
  intros Hcode Hreg params. split; [|split; [|split]].
  - apply (registrationActions_returns diagnostic reg
             (mkWorld params (w_log w))).
  - intros Honly.
    exists (map (fun r => CalledGetCodeActions r params)
                (MultiMap.getAll errorCodeToRegistrationMap code)).
    split.
    + rewrite (diagnosticActions_string _ code) by done.
      apply (flatMapM_registrationActions_single diagnostic _
               (mkWorld params (w_log w))).
      intros r _ [_ (diag & Hin & Hne & Hc)]. simpl in Hin.
      rewrite (Honly diag Hin Hc) in Hne. discriminate.
    + intros e Hin. apply in_map_iff in Hin as (r & <- & _). done.
  - intros other a l fixAll Hregs Hin Hc Hne Hsingle Hall.
    rewrite (diagnosticActions_string _ code) by done.
    rewrite Hregs. simpl. run. fold params.
    assert (Hg : fixAllOffered diagnostic reg params).
    { split; [eauto|]. exists other. done. }
    rewrite (registrationActions_offered diagnostic reg
               (mkWorld params (w_log w))) by done.
    simpl. rewrite Hall. simpl. rewrite app_nil_r. eexists. split; [done|].
    unfold singleFixActions. by rewrite Hsingle.
  - rewrite (diagnosticActions_string _ code) by done.
    apply (flatMapM_registrationActions_parts diagnostic _
             (mkWorld params (w_log w))).
Qed.

(** C7. [getFixAllCodeAction] of the "introduce new function argument"
    provider returns nothing for every input, and what the dispatcher
    collects from this provider for a diagnostic is exactly the tagged
    result of its [getCodeActions] (which is [getActions] at the current
    range): no fix-all action is appended, whatever diagnostics the
    document has. *)
Theorem introduce_argument_no_fix_all (diagnostic : Diagnostic)
    (w : World) :
  (forall params,
      getFixAllCodeAction IntroduceNewFunctionArgument.registration params
      = None)
  /\ (exists new,
        registrationActions diagnostic
          IntroduceNewFunctionArgument.registration w
        = Returned
            (singleFixActions diagnostic
               IntroduceNewFunctionArgument.registration (w_params w))
            (mkWorld (w_params w) (w_log w ++ new)))
  /\ singleFixActions diagnostic IntroduceNewFunctionArgument.registration
       (w_params w)
     = map (fun codeAction =>
              addDiagnosticToCodeAction codeAction diagnostic)
           (default []
              (IntroduceNewFunctionArgument.getActions
                 (w_params w) (range (w_params w)))).
Proof.
  split; [done|]. split; [|done].
  destruct (fixAllOffered_dec diagnostic
              IntroduceNewFunctionArgument.registration (w_params w))
    as [Hg|Hg].
  - eexists. rewrite registrationActions_offered by done.
    simpl. by rewrite app_nil_r.
  - eexists. by rewrite registrationActions_not_offered by done.
Qed.

Lemma rangeAfter_cons (entry : option Diagnostic)
    (ds : list (option Diagnostic)) (r : Range) :
  rangeAfter (entry :: ds) r = rangeAfter ds (rangeAfter [entry] r).
Proof. reflexivity. Qed.

(** One context diagnostic: nothing throws, and the [params] object ends
    with the range of the diagnostic when its code is a string. *)
Lemma diagnosticActions_returns (entry : option Diagnostic) (w : World) :
  exists acts new,
    diagnosticActions entry w
    = Returned acts
        (mkWorld (set_range (w_params w)
                            (rangeAfter [entry] (range (w_params w))))
                 (w_log w ++ new)).
Proof.
  assert (Hskip : Returned (A:=list CodeAction) [] w
                  = Returned []
                      (mkWorld (set_range (w_params w) (range (w_params w)))
                               (w_log w ++ []))).
  { by rewrite set_range_same, app_nil_r, world_eta. }
  destruct entry as [diagnostic|]; [|by exists [], []].
  destruct (d_code diagnostic) as [| n | code] eqn:Hcode.
  - exists [], []. unfold CodeActionProvider.diagnosticActions, rangeAfter.
    simpl. rewrite Hcode. exact Hskip.
  - exists [], []. unfold CodeActionProvider.diagnosticActions, rangeAfter.
    simpl. rewrite Hcode. exact Hskip.
  - rewrite (diagnosticActions_string _ code) by done.
    unfold rangeAfter. simpl. rewrite Hcode. simpl.
    apply (flatMapM_registrationActions_returns diagnostic _
             (mkWorld (set_range (w_params w) (d_range diagnostic))
                      (w_log w))).
Qed.

(** The loop over the context diagnostics never throws; it leaves the
    [params] object with the range of the last diagnostic whose code is a
    string. *)
Lemma loop_returns (ds : list (option Diagnostic)) (w : World) :
  exists acts new,
    flatMapM diagnosticActions ds w
    = Returned acts
        (mkWorld (set_range (w_params w)
                            (rangeAfter ds (range (w_params w))))
                 (w_log w ++ new)).
Proof.
  revert w. induction ds as [|entry ds IH]; intros w.
  - exists [], []. simpl. run. unfold rangeAfter. simpl.
    by rewrite set_range_same, app_nil_r, world_eta.
  - destruct (diagnosticActions_returns entry w) as (acts & new & Hone).
    destruct (IH (mkWorld (set_range (w_params w)
                             (rangeAfter [entry] (range (w_params w))))
                          (w_log w ++ new)))
      as (acts' & new' & Hrest).
    exists (acts ++ acts'), (new ++ new').
    rewrite rangeAfter_cons, app_assoc. cbn [flatMapM].
    unfold mbind, M_bind. rewrite Hone, Hrest. reflexivity.
Qed.

Lemma convertDiagnostic_returns (container : SourceFile)
    (checker : TypeChecker) (uri : string) (diagnostic : Diagnostic)
    (w : World) :
  exists acts,
    convertDiagnostic container checker uri (Some diagnostic) w
    = Returned acts w.
Proof.
  unfold convertDiagnostic.
  destruct (code_strict_eq _ _); [|by eexists].
  destruct (Node.parent _); by eexists.
Qed.

Lemma convertDiagnostics_returns (ds : list (option Diagnostic))
    (elmWorkspace : Program) (uri : string) (w : World) :
  Forall is_Some ds ->
  exists acts,
    convertDiagnosticsToCodeActions ds elmWorkspace uri w = Returned acts w.
Proof.
  intros Hall. unfold convertDiagnosticsToCodeActions.
  destruct (getByUri (getForest elmWorkspace) uri) as [container|];
    [|by eexists].
  induction Hall as [|entry ds [diagnostic ->] _ IH]; cbn [flatMapM].
  - by eexists.
  - destruct (convertDiagnostic_returns container
                (getTypeChecker elmWorkspace) uri diagnostic w)
      as (acts & Hone).
    destruct IH as (acts' & Hrest).
    exists (acts ++ acts'). unfold mbind, M_bind.
    rewrite Hone, Hrest. reflexivity.
Qed.

(** The whole request: it returns when the context entries are
    diagnostics, and the range-based detections run on the [params] object
    as the loop left it, with the range of the last context diagnostic
    whose code is a string, and with the request range only when there is
    none. *)
Lemma refactor_range_after_loop (w : World) :
  Forall is_Some (context_diagnostics (w_params w)) ->
  let final :=
    set_range (w_params w)
      (rangeAfter (context_diagnostics (w_params w)) (range (w_params w)))
  in
  paramsAfter (onCodeAction w) = final
  /\ exists results converted,
      returned (onCodeAction w)
      = Some (results ++ converted
              ++ (getRefactorCodeActions this final
                  ++ getTypeAnnotationCodeActions final)
              ++ elmMake_onCodeAction this (w_params w)
              ++ elmDiagnostics_onCodeAction this (w_params w)).
Proof.
  intros Hall final.
  destruct (loop_returns (context_diagnostics (w_params w)) w)
    as (results & new & Hloop).
  fold final in Hloop.
  destruct (convertDiagnostics_returns (context_diagnostics final)
              (program final) (textDocument_uri final)
              (mkWorld final (w_log w ++ new)))
    as (converted & Hconv); [exact Hall|].
  unfold CodeActionProvider.onCodeAction.
  unfold mbind, M_bind, mret, M_ret, getParams.
  rewrite Hloop. cbn [w_params]. rewrite Hconv.
  cbn [paramsAfter returned w_params].
  split; [done|]. exists results, converted. by rewrite <- app_assoc.
Qed.

(** C8. For a request whose context entries are diagnostics, the
    returned list is, in this order: the actions of the loop over the
    context diagnostics (provider actions), the diagnostic-to-annotation
    conversions, the range-based refactor actions followed by the
    let-binding annotation actions, the actions of the elm make source
    and the actions of the elm-ls source. *)
Theorem result_order (w : World) :
  Forall is_Some (context_diagnostics (w_params w)) ->
  exists results converted w1,
    flatMapM diagnosticActions (context_diagnostics (w_params w)) w
    = Returned results w1
    /\ convertDiagnosticsToCodeActions
         (context_diagnostics (w_params w1)) (program (w_params w1))
         (textDocument_uri (w_params w1)) w1
       = Returned converted w1
    /\ onCodeAction w
       = Returned
           (results
            ++ converted
            ++ (getRefactorCodeActions this (w_params w1)
                ++ getTypeAnnotationCodeActions (w_params w1))
            ++ elmMake_onCodeAction this (w_params w)
            ++ elmDiagnostics_onCodeAction this (w_params w))
           w1.
Proof.
  intros Hall.
  destruct (loop_returns (context_diagnostics (w_params w)) w)
    as (results & new & Hloop).
  set (w1 := mkWorld _ _) in Hloop.
  destruct (convertDiagnostics_returns (context_diagnostics (w_params w1))
              (program (w_params w1)) (textDocument_uri (w_params w1)) w1)
    as (converted & Hconv); [exact Hall|].
  exists results, converted, w1. split; [done|]. split; [done|].
  unfold CodeActionProvider.onCodeAction. run. rewrite Hloop.
  rewrite Hconv. by rewrite <- app_assoc.
Qed.

Lemma diagnosticActions_skip (diagnostic : Diagnostic) (w : World) :
  isStringCode (d_code diagnostic) = false ->
  diagnosticActions (Some diagnostic) w = Returned [] w.
Proof.
  unfold CodeActionProvider.diagnosticActions.
  by destruct (d_code diagnostic).
Qed.

Lemma convertDiagnostic_skip (container : SourceFile)
    (checker : TypeChecker) (uri : string) (diagnostic : Diagnostic)
    (w : World) :
  d_code diagnostic <> CodeStr MissingTypeAnnotation_code ->
  convertDiagnostic container checker uri (Some diagnostic) w
  = Returned [] w.
Proof.
  intros Hne. unfold convertDiagnostic, code_strict_eq.
  by rewrite bool_decide_eq_false_2.
Qed.

Lemma loop_filter_string_codes (ds : list (option Diagnostic)) (w : World) :
  Forall is_Some ds ->
  flatMapM diagnosticActions ds w
  = flatMapM diagnosticActions (List.filter hasStringCode ds) w.
Proof.
  intros Hall. revert w.
  induction Hall as [|entry ds [diagnostic ->] _ IH]; intros w; [done|].
  cbn [flatMapM List.filter hasStringCode].
  destruct (isStringCode (d_code diagnostic)) eqn:Hcode.
  - cbn [flatMapM]. unfold mbind, M_bind.
    destruct (diagnosticActions (Some diagnostic) w); [|done].
    by rewrite IH.
  - unfold mbind, M_bind. rewrite diagnosticActions_skip by done.
    rewrite IH. by destruct (flatMapM _ _ w).
Qed.

(** Diagnostics without a string code, in a request whose context
    entries are diagnostics: such an entry has no provider called for it
    (the log is unchanged), leaves the [params] object alone and yields
    no action, in the provider loop and in the diagnostic-to-annotation
    conversion alike; the provider loop runs as if such entries were not
    in the list; and the computation returns (it does not throw).  With
    one entry of code 42 and one of the string code "UnregisteredCode",
    which has no provider and is not the code of the annotation
    conversion, nothing from the external sources, and no refactor
    applicable at any range of the document, the returned list is
    empty. *)
Theorem malformed_diagnostics_skipped (w : World) :
  Forall is_Some (context_diagnostics (w_params w)) ->
  (forall diagnostic w0,
      isStringCode (d_code diagnostic) = false ->
      diagnosticActions (Some diagnostic) w0 = Returned [] w0
      /\ forall container checker uri,
          convertDiagnostic container checker uri (Some diagnostic) w0
          = Returned [] w0)
  /\ flatMapM diagnosticActions (context_diagnostics (w_params w)) w
     = flatMapM diagnosticActions
         (List.filter hasStringCode (context_diagnostics (w_params w))) w
  /\ is_Some (returned (onCodeAction w))
  /\ (forall range42 message42 rangeU messageU,
        context_diagnostics (w_params w)
        = [Some (mkDiagnostic (CodeNum 42) range42 message42);
           Some (mkDiagnostic (CodeStr "UnregisteredCode") rangeU
                              messageU)] ->
        MultiMap.getAll errorCodeToRegistrationMap "UnregisteredCode" = [] ->
        MissingTypeAnnotation_code <> "UnregisteredCode" ->
        (forall r,
            getRefactorCodeActions this (set_range (w_params w) r) = []
            /\ getTypeAnnotationCodeActions (set_range (w_params w) r)
               = []) ->
        elmMake_onCodeAction this (w_params w) = [] ->
        elmDiagnostics_onCodeAction this (w_params w) = [] ->
        returned (onCodeAction w) = Some []).
Proof.
  intros Hall. split; [|split; [|split]].
  - intros diagnostic w0 Hcode. split.
    + by apply diagnosticActions_skip.
    + intros container checker uri. apply convertDiagnostic_skip.
      intros Heq. by rewrite Heq in Hcode.
  - by apply loop_filter_string_codes.
  - destruct (refactor_range_after_loop w Hall)
      as (_ & results & converted & ->).
    by eexists.
  - intros range42 message42 rangeU messageU Hds Hnone Hcode Hrefactor
           Hmake Helm.
    unfold CodeActionProvider.onCodeAction.
    unfold mbind, M_bind, getParams. rewrite Hds.
    cbn [flatMapM]. unfold mbind, M_bind.
    rewrite diagnosticActions_skip by done.
    rewrite (diagnosticActions_string _ "UnregisteredCode") by done.
    rewrite Hnone. cbn [flatMapM d_range w_params w_log].
    unfold mret, M_ret.
    unfold convertDiagnosticsToCodeActions.
    cbn [w_params context_diagnostics set_range program textDocument_uri].
    rewrite Hds, Hmake, Helm.
    destruct (Hrefactor rangeU) as [Href Hann].
    destruct (getByUri _ _) as [container|].
    + cbn [flatMapM]. unfold mbind, M_bind.
      rewrite !convertDiagnostic_skip; [|simpl; congruence|done].
      unfold mret, M_ret. cbn [w_params]. by rewrite Href, Hann.
    + unfold mret, M_ret. cbn [w_params]. by rewrite Href, Hann.
Qed.

(** *** Independence of the call history *)

Lemma logFree_ret {A} (a : A) : logFree (mret a).
Proof. intros w1 w2 Hp. by split. Qed.

Lemma logFree_bind {A B} (m : M A) (k : A -> M B) :
  logFree m -> (forall a, logFree (k a)) -> logFree (m ≫= k).
Proof.
  intros Hm Hk w1 w2 Hp. unfold mbind, M_bind.
  destruct (Hm w1 w2 Hp) as [Hr Hq].
  destruct (m w1) as [a1 v1|v1], (m w2) as [a2 v2|v2]; simpl in *;
    try discriminate.
  - injection Hr as ->. by apply Hk.
  - done.
Qed.

Lemma logFree_getParams_bind {B} (k : Params -> M B) :
  (forall p, logFree (k p)) -> logFree (getParams ≫= k).
Proof.
  intros Hk w1 w2 Hp. unfold mbind, M_bind, getParams.
  rewrite Hp. by apply Hk.
Qed.

Lemma logFree_assignRange (r : Range) : logFree (assignRange r).
Proof. intros w1 w2 Hp. unfold assignRange. simpl. by rewrite Hp. Qed.

Lemma logFree_emit (e : Event) : logFree (emit e).
Proof. intros w1 w2 Hp. by split. Qed.

Lemma logFree_throw {A} : logFree (@throwTypeError A).
Proof. intros w1 w2 Hp. by split. Qed.

Lemma logFree_flatMapM {A B} (f : A -> M (list B)) (xs : list A) :
  (forall x, logFree (f x)) -> logFree (flatMapM f xs).
Proof.
  intros Hf. induction xs as [|x xs IH]; cbn [flatMapM].
  - apply logFree_ret.
  - apply logFree_bind; [apply Hf|]. intros ys.
    apply logFree_bind; [apply IH|]. intros zs. apply logFree_ret.
Qed.

Ltac logfree :=
  repeat match goal with
         | |- logFree (mret _) => apply logFree_ret
         | |- logFree (assignRange _) => apply logFree_assignRange
         | |- logFree (emit _) => apply logFree_emit
         | |- logFree throwTypeError => apply logFree_throw
         | |- logFree (getParams ≫= _) =>
             apply logFree_getParams_bind; intros ?
         | |- logFree (_ ≫= _) => apply logFree_bind; [|intros ?]
         | |- logFree (flatMapM _ _) => apply logFree_flatMapM; intros ?
         | |- logFree (if ?b then _ else _) => destruct b
         | |- logFree (match ?o with Some _ => _ | None => _ end) =>
             destruct o
         end.

Lemma logFree_registrationActions (diagnostic : Diagnostic)
    (reg : Registration) : logFree (registrationActions diagnostic reg).
Proof. unfold registrationActions. cbv zeta. logfree. Qed.

Lemma logFree_diagnosticActions (entry : option Diagnostic) :
  logFree (diagnosticActions entry).
Proof.
  unfold CodeActionProvider.diagnosticActions.
  destruct entry as [diagnostic|]; [|logfree].
  destruct (d_code diagnostic); logfree.
  apply logFree_registrationActions.
Qed.

Lemma logFree_convertDiagnostics (ds : list (option Diagnostic))
    (elmWorkspace : Program) (uri : string) :
  logFree (convertDiagnosticsToCodeActions ds elmWorkspace uri).
Proof.
  unfold convertDiagnosticsToCodeActions.
  destruct (getByUri _ _); logfree.
  unfold convertDiagnostic. cbv zeta. logfree.
Qed.

(** C9. Two invocations on the same input (the same [params]: document,
    range, context diagnostics and the collaborators behind [program]),
    with the same registry and the same external sources, return the
    same list of actions, in content and order, whatever calls were made
    before; they also leave the same [params] behind. *)
Theorem onCodeAction_deterministic (w1 w2 : World) :
  w_params w1 = w_params w2 ->
  returned (onCodeAction w1) = returned (onCodeAction w2)
  /\ paramsAfter (onCodeAction w1) = paramsAfter (onCodeAction w2).
Proof.
  revert w1 w2. change (logFree onCodeAction).
  unfold CodeActionProvider.onCodeAction. cbv zeta. logfree.
  - apply logFree_diagnosticActions.
  - apply logFree_convertDiagnostics.
Qed.

(** C6. The create-declaration-from-usage detection offers no action
    when a top-level function declaration of the file has the identifier
    as the text of its first child or of the first child of its first
    child. *)
Theorem no_declaration_for_declared_name (params : Params)
    (nodeAtPosition : SyntaxNode) (decls : list SyntaxNode)
    (declaration : SyntaxNode) :
  findAllTopLevelFunctionDeclarations (sf_tree (sourceFile params))
  = Some decls ->
  In declaration decls ->
  text_is (Node.firstChild declaration) (Node.text nodeAtPosition) = true
  \/ text_is (Node.firstChild declaration ≫= Node.firstChild)
             (Node.text nodeAtPosition) = true ->
  getMakeDeclarationFromUsageCodeActions params nodeAtPosition = [].
Proof.
  intros Hdecls Hin Htext.
  unfold getMakeDeclarationFromUsageCodeActions.
  destruct (isBareValueUsage nodeAtPosition); [|done].
  assert (Hdeclared : alreadyDeclared (sf_tree (sourceFile params))
                                      (Node.text nodeAtPosition) = true).
  { unfold alreadyDeclared. rewrite Hdecls. apply existsb_exists.
    exists declaration. split; [done|]. unfold declares.
    apply orb_true_iff. done. }
  by rewrite Hdeclared.
Qed.
End DispatcherProperties.

(** ** The sample document, worked out *)

Section SampleChecks.
Local Existing Instance Sample.treeUtils.
Local Existing Instance Sample.refactorEditUtils.
Local Existing Instance Sample.diagnosticsModule.
Import CodeActionProvider.



(** Line 1 of the sample after the first edit. *)
Example parameter_edit_sample_line :
  insertOnLine "f a =" 4 "x " = "f a x =".
Proof. reflexivity. Qed.

(** The type of [x] renders as [Maybe Int], with a space, and goes into
    the signature of [f] in parentheses. *)
Lemma signature_type_parenthesized_sample :
  exists action valueEdit,
    IntroduceNewFunctionArgument.getActionsForValueDeclaration
      Sample.f_declaration Sample.x_node
      (Sample.request Sample.x_range [] []) = Some action
    /\ ca_changes action =
       Some [(Sample.uri,
              [valueEdit;
               TextEdits.insert (mkPosition 0 11) "(Maybe Int) -> "])].
Proof.
  assert (Hreturn : lastArgumentType Sample.f_declaration
                    = Some Sample.f_return_type) by reflexivity.
  destruct (signature_type_parenthesized Sample.f_declaration Sample.x_node
              Sample.f_pattern Sample.f_return_type
              (Sample.request Sample.x_range [] []) eq_refl Hreturn)
    as (action & valueEdit & inserted & Haction & Hchanges & Hparen & _).
  exists action, valueEdit. split; [exact Haction|].
  rewrite Hchanges.
  assert (Hin : contains_space "Maybe Int").
  { unfold contains_space. simpl. auto 10. }
  apply Hparen in Hin. rewrite Hin. reflexivity.
Defined.

(** The usage of [x] is nested in [g], which is nested in [f]: two
    actions, for [g] first. *)
Lemma one_action_per_enclosing_declaration_sample :
  exists actions,
    IntroduceNewFunctionArgument.getActions
      (Sample.request Sample.x_range [] []) Sample.x_range = Some actions
    /\ Forall2
         (fun valueDeclaration action =>
            IntroduceNewFunctionArgument.getActionsForValueDeclaration
              valueDeclaration Sample.x_node
              (Sample.request Sample.x_range [] []) = Some action
            /\ ca_title action = newParameterTitle valueDeclaration)
         [Sample.g_declaration; Sample.f_declaration] actions.
Proof.
  assert (Husage : isBareValueUsage
                     (getNamedDescendantForRange
                        (sourceFile (Sample.request Sample.x_range [] []))
                        Sample.x_range) = true) by reflexivity.
  destruct (one_action_per_enclosing_declaration
              (Sample.request Sample.x_range [] []) Sample.x_range Husage)
    as (_ & actions & Hactions & Hall).
  exists actions. split; [exact Hactions | exact Hall].
Defined.

Example sample_titles :
  map ca_title
      (default []
         (IntroduceNewFunctionArgument.getActions
            (Sample.request Sample.x_range [] []) Sample.x_range))
  = [Sample.quoted "g"; Sample.quoted "f"].
Proof. reflexivity. Qed.

(** [f] is declared at the top level: no declaration is offered for the
    call of [f] on line 5. *)
Lemma no_declaration_for_declared_name_sample :
  getMakeDeclarationFromUsageCodeActions
    (Sample.request (Sample.at_ 5 4 5) [] []) Sample.f_usage = [].
Proof.
  apply (no_declaration_for_declared_name
           (Sample.request (Sample.at_ 5 4 5) [] []) Sample.f_usage
           [Sample.f_declaration] Sample.f_declaration).
  - reflexivity.
  - simpl. auto.
  - right. reflexivity.
Defined.

(** The unbound [x] on line 3 is not declared, and is offered one. *)
Example declaration_offered_for_x :
  isBareValueUsage Sample.f_usage = true
  /\ map ca_title
       (getMakeDeclarationFromUsageCodeActions
          (Sample.request Sample.x_range [] []) Sample.x_node)
     = ["Create local function"].
Proof. split; reflexivity. Qed.

(** **** Fix-all gating on the sample *)

(** Both unbound names are reported; for the diagnostic of [x] the
    underscore provider returns its single fix followed by its one
    fix-all action. *)
Lemma fix_all_gating_sample :
  exists single fixAll w',
    diagnosticActions Sample.underscoreRegistry (Some Sample.missing_x)
      (initial (Sample.request Sample.x_range [Some Sample.missing_x]
                               [Sample.missing_x; Sample.missing_y]))
    = Returned [single; fixAll] w'
    /\ ca_kind single = Some QuickFix
    /\ ca_kind fixAll = Some SourceFixAll.
Proof.
  pose (params := Sample.request Sample.x_range [Some Sample.missing_x]
                                 [Sample.missing_x; Sample.missing_y]).
  assert (Hreg : In Sample.underscoreProvider
                    (MultiMap.getAll Sample.underscoreRegistry
                                     "missing_value")).
  { left. reflexivity. }
  destruct (fix_all_gating Sample.underscoreRegistry Sample.missing_x
              "missing_value" Sample.underscoreProvider (initial params)
              eq_refl Hreg)
    as (_ & _ & Htwo & _).
  destruct (Htwo Sample.missing_y
              (Static.getCodeAction params "Replace by underscore"
                 [mkTextEdit Sample.x_range "_"])
              []
              (Static.getFixAllCodeAction "Replace all by underscore"
                 params ["missing_value"]
                 (fun edits d => edits ++ [Sample.underscoreEdit d])))
    as (w' & Hrun & _);
    [reflexivity | simpl; auto | reflexivity | reflexivity | reflexivity
    | reflexivity |].
  do 3 eexists. split; [exact Hrun|]. split; reflexivity.
Defined.

(** With [x] as the only reported name, the same request gets the single
    fix and no fix-all call: the one call logged is [getCodeActions]. *)
Example single_diagnostic_sample :
  match diagnosticActions Sample.underscoreRegistry (Some Sample.missing_x)
          (initial (Sample.request Sample.x_range [Some Sample.missing_x]
                                   [Sample.missing_x]))
  with
  | Returned actions w' =>
      (map ca_title actions, map isFixAllCall (w_log w'))
  | Threw _ => ([], [])
  end = (["Replace by underscore"], [false]).
Proof. vm_compute. reflexivity. Qed.

(** C2 as first stated fails on the provider of this development.  The
    document reports the two unbound names [x] and [y], at different
    ranges and with the same code, and the "introduce new function
    argument" provider is the provider registered for the code.  The
    request at the diagnostic of [x] gets the two single-fix actions, the
    request at that of [y] gets one, and neither gets a fix-all action:
    [getFixAllCodeAction] of the provider was called, and returned
    nothing. *)
Lemma two_diagnostics_without_fix_all :
  MultiMap.getAll Sample.registry "missing_value"
  = [IntroduceNewFunctionArgument.registration]
  /\ d_code Sample.missing_x = d_code Sample.missing_y
  /\ d_range Sample.missing_x <> d_range Sample.missing_y
  /\ diagnosticsEquals Sample.missing_y Sample.missing_x = false
  /\ diagnosticsEquals Sample.missing_x Sample.missing_y = false
  /\ match diagnosticActions Sample.registry (Some Sample.missing_x)
             (initial (Sample.request Sample.x_range
                         [Some Sample.missing_x]
                         [Sample.missing_x; Sample.missing_y]))
     with
     | Returned actions w' =>
         (map ca_title actions, map ca_kind actions,
          map isFixAllCall (w_log w'))
     | Threw _ => ([], [], [])
     end
     = ([Sample.quoted "g"; Sample.quoted "f"],
        [Some QuickFix; Some QuickFix], [false; true])
  /\ match diagnosticActions Sample.registry (Some Sample.missing_y)
             (initial (Sample.request (d_range Sample.missing_y)
                         [Some Sample.missing_y]
                         [Sample.missing_x; Sample.missing_y]))
     with
     | Returned actions w' =>
         (map ca_title actions, map ca_kind actions,
          map isFixAllCall (w_log w'))
     | Threw _ => ([], [], [])
     end
     = ([Sample.quoted "f"], [Some QuickFix], [false; true])
  /\ forall p,
       getFixAllCodeAction IntroduceNewFunctionArgument.registration p
       = None.
Proof.
  split; [reflexivity|]. split; [reflexivity|]. split; [discriminate|].
  split; [reflexivity|]. split; [reflexivity|].
  split; [vm_compute; reflexivity|]. split; [vm_compute; reflexivity|].
  reflexivity.
Qed.

(** Three more requests show why the conditions of the amended C2 speak
    of identity and of one provider, not of the number of diagnostics.
    A context diagnostic that differs from the one reported diagnostic of
    its code (an older message) gets a fix-all action; two reported
    diagnostics that are identical get none; and a code with the provider
    registered twice gets two. *)
Example fix_all_follows_identity_not_count :
  map ca_title
    <$> returned
          (diagnosticActions Sample.underscoreRegistry
             (Some (mkDiagnostic (CodeStr "missing_value") Sample.x_range
                      "Cannot find x (before the last edit)"))
             (initial (Sample.request Sample.x_range [] [Sample.missing_x])))
  = Some ["Replace by underscore"; "Replace all by underscore"]
  /\ map ca_title
       <$> returned
             (diagnosticActions Sample.underscoreRegistry
                (Some Sample.missing_x)
                (initial (Sample.request Sample.x_range []
                            [Sample.missing_x; Sample.missing_x])))
     = Some ["Replace by underscore"]
  /\ map ca_title
       <$> returned
             (diagnosticActions
                (Static.registerCodeAction Sample.underscoreProvider
                   Sample.underscoreRegistry)
                (Some Sample.missing_x)
                (initial (Sample.request Sample.x_range []
                            [Sample.missing_x; Sample.missing_y])))
     = Some ["Replace by underscore"; "Replace all by underscore";
             "Replace by underscore"; "Replace all by underscore"].
Proof. repeat split; vm_compute; reflexivity. Qed.

(** **** Requests on the sample *)

(** A numbered diagnostic and an unregistered one, in a document without
    a tree: the request returns the empty list. *)
Lemma malformed_diagnostics_skipped_sample :
  returned
    (onCodeAction Sample.services Sample.registry
       (initial (Sample.unknownRequest (Sample.at_ 1 0 1)
                   [Some Sample.code42; Some Sample.unregistered])))
  = Some [].
Proof.
  assert (Hall : Forall is_Some
                   [Some Sample.code42; Some Sample.unregistered]).
  { repeat constructor; by eexists. }
  destruct (malformed_diagnostics_skipped Sample.services Sample.registry
              (initial (Sample.unknownRequest (Sample.at_ 1 0 1)
                          [Some Sample.code42; Some Sample.unregistered]))
              Hall)
    as (_ & _ & _ & Hempty).
  apply (Hempty (Sample.at_ 1 0 1) "numbered" (Sample.at_ 3 14 15)
                "nobody handles this").
  - reflexivity.
  - reflexivity.
  - discriminate.
  - intros r. split; reflexivity.
  - reflexivity.
  - reflexivity.
Defined.

(** The same two diagnostics in the sample document, requested on the
    [=] of line 1 where no refactor applies, do not throw either. *)
Example malformed_diagnostics_in_sample :
  map ca_title
    <$> returned
          (onCodeAction Sample.services Sample.registry
             (initial (Sample.request (Sample.at_ 1 4 5)
                         [Some Sample.code42;
                          Some (mkDiagnostic (CodeStr "UnregisteredCode")
                                  (Sample.at_ 1 4 5) "")]
                         [])))
  = Some [].
Proof. vm_compute. reflexivity. Qed.

(** A [null] entry makes the conversion of the diagnostics throw. *)
Example null_entry_throws :
  returned
    (onCodeAction Sample.services Sample.registry
       (initial (Sample.request (Sample.at_ 1 4 5) [None] [])))
  = None.
Proof. vm_compute. reflexivity. Qed.

(** A request on the name of [f] with both kinds of context diagnostics
    and busy external sources: provider actions, the conversion, the
    range-based detections, elm make, elm-ls. *)
Lemma result_order_sample :
  exists results converted w1,
    flatMapM (diagnosticActions Sample.registry)
      [Some Sample.missing_x; Some Sample.unannotated_g]
      (initial (Sample.request (Sample.at_ 1 0 1)
                  [Some Sample.missing_x; Some Sample.unannotated_g]
                  [Sample.missing_x; Sample.missing_y]))
    = Returned results w1
    /\ onCodeAction Sample.busyServices Sample.registry
         (initial (Sample.request (Sample.at_ 1 0 1)
                     [Some Sample.missing_x; Some Sample.unannotated_g]
                     [Sample.missing_x; Sample.missing_y]))
       = Returned
           (results ++ converted
            ++ (getRefactorCodeActions Sample.busyServices (w_params w1)
                ++ getTypeAnnotationCodeActions (w_params w1))
            ++ [Sample.named "from elm make"]
            ++ [Sample.named "from elm-ls"])
           w1.
Proof.
  assert (Hall : Forall is_Some
                   [Some Sample.missing_x; Some Sample.unannotated_g]).
  { repeat constructor; by eexists. }
  destruct (result_order Sample.busyServices Sample.registry
              (initial (Sample.request (Sample.at_ 1 0 1)
                          [Some Sample.missing_x; Some Sample.unannotated_g]
                          [Sample.missing_x; Sample.missing_y]))
              Hall)
    as (results & converted & w1 & Hloop & _ & Hrun).
  exists results, converted, w1. split; [exact Hloop | exact Hrun].
Defined.

Example result_order_titles :
  map ca_title
    <$> returned
          (onCodeAction Sample.busyServices Sample.registry
             (initial (Sample.request (Sample.at_ 1 0 1)
                         [Some Sample.missing_x; Some Sample.unannotated_g]
                         [Sample.missing_x; Sample.missing_y])))
  = Some [Sample.quoted "g"; Sample.quoted "f"; "Add inferred annotation";
          "Add inferred annotation"; "from elm make"; "from elm-ls"].
Proof. vm_compute. reflexivity. Qed.

(** The same request after other provider calls were logged returns the
    same actions. *)
Lemma onCodeAction_deterministic_sample :
  returned
    (onCodeAction Sample.busyServices Sample.registry
       (initial (Sample.request Sample.x_range [Some Sample.missing_x]
                   [Sample.missing_x; Sample.missing_y])))
  = returned
      (onCodeAction Sample.busyServices Sample.registry
         (mkWorld (Sample.request Sample.x_range [Some Sample.missing_x]
                     [Sample.missing_x; Sample.missing_y])
                  [CalledGetCodeActions Sample.underscoreProvider
                     (Sample.request (Sample.at_ 1 0 1) [] [])])).
Proof.
  exact (proj1 (onCodeAction_deterministic Sample.busyServices
                  Sample.registry _ _ eq_refl)).
Defined.

(** C1 on the sample.  The request range is the name of [f] on line 1,
    where the function refactor applies ("Expose Function"); the context
    holds the diagnostic of the unbound [x] of line 3.  After the
    provider loop the [params] object has the range of the diagnostic,
    and the range-based detections inspect the node of [x]: the result
    has the two provider actions and "Create local function" for [x],
    and no "Expose Function" for [f]. *)
Theorem refactors_inspect_diagnostic_range :
  let params :=
    Sample.request (Sample.at_ 1 0 1) [Some Sample.missing_x]
                   [Sample.missing_x; Sample.missing_y] in
  let outcome :=
    onCodeAction Sample.services Sample.registry (initial params) in
  map ca_title (getRefactorCodeActions Sample.services params)
  = ["Expose Function"]
  /\ range (paramsAfter outcome) = d_range Sample.missing_x
  /\ map ca_title <$> returned outcome
     = Some [Sample.quoted "g"; Sample.quoted "f"; "Create local function"]
  /\ returned outcome
     = Some (singleFixActions Sample.missing_x
               IntroduceNewFunctionArgument.registration
               (set_range params (d_range Sample.missing_x))
             ++ getRefactorCodeActions Sample.services
                  (set_range params (d_range Sample.missing_x))).
Proof.
  cbv zeta. split; [vm_compute; reflexivity|].
  split; [vm_compute; reflexivity|].
  split; vm_compute; reflexivity.
Qed.

(** C5 on the sample.  The request is the selection [= x] on line 3,
    which starts on the [=], where no range-based action applies; the
    context holds a diagnostic with the numeric code 42 and one with the
    string code "UnregisteredCode" on the [x] inside the selection; no
    provider is registered for that code, it is not the code of the
    annotation conversion, and the external sources return nothing.  No
    provider is called and nothing throws, but the returned list is not
    empty: handling the unregistered diagnostic has assigned its range to
    the [params] object, and the range-based detection, run afterwards,
    offers "Create local function" for [x]. *)
Theorem unregistered_diagnostic_yields_refactor :
  let params :=
    Sample.request (mkRange (mkPosition 3 12) (mkPosition 3 15))
      [Some (mkDiagnostic (CodeNum 42) Sample.x_range "numbered");
       Some Sample.unregistered]
      [] in
  let outcome :=
    onCodeAction Sample.services Sample.registry (initial params) in
  MultiMap.getAll Sample.registry "UnregisteredCode" = []
  /\ MissingTypeAnnotation_code <> "UnregisteredCode"
  /\ getRefactorCodeActions Sample.services params = []
  /\ getTypeAnnotationCodeActions params = []
  /\ elmMake_onCodeAction Sample.services params = []
  /\ elmDiagnostics_onCodeAction Sample.services params = []
  /\ logAfter outcome = []
  /\ range (paramsAfter outcome) = d_range Sample.unregistered
  /\ map ca_title <$> returned outcome = Some ["Create local function"].
Proof.
  cbv zeta. split; [reflexivity|]. split; [discriminate|].
  split; [vm_compute; reflexivity|]. split; [vm_compute; reflexivity|].
  split; [reflexivity|]. split; [reflexivity|].
  split; [vm_compute; reflexivity|]. split; vm_compute; reflexivity.
Qed.
End SampleChecks.


(** * Further properties of the dispatcher and the provider *)

(** ** The registry *)

Section RegistryProperties.
Import CodeActionProvider.

Lemma getAll_set {V} (key code : string) (val : V) (m : MultiMap.t V) :
  MultiMap.getAll (MultiMap.set key val m) code
  = MultiMap.getAll m code ++ (if String.eqb code key then [val] else []).
Proof.
  unfold MultiMap.getAll, MultiMap.set, MultiMap.t in *.
  destruct (String.eqb_spec code key) as [->|Hne].
  - by rewrite lookup_insert_eq.
  - rewrite lookup_insert_ne by done. by rewrite app_nil_r.
Qed.

Lemma getAll_foldl_set {V} (val : V) (codes : list string) (code : string)
    (m : MultiMap.t V) :
  MultiMap.getAll
    (foldl (fun acc c => MultiMap.set c val acc) m codes) code
  = MultiMap.getAll m code ++ replicate (occurrences code codes) val.
Proof.
  revert m. induction codes as [|c codes IH]; intros m.
  - simpl. by rewrite app_nil_r.
  - cbn [foldl]. rewrite IH, getAll_set. unfold occurrences.
    cbn [List.filter]. destruct (String.eqb code c); simpl.
    + by rewrite <- app_assoc.
    + by rewrite app_nil_r.
Qed.

(** X1. Registration, then lookup.  After [registerCodeAction], the providers
    of a code are the ones that were there, in their order, followed by the
    new registration once for each time the code is listed among its
    [errorCodes]; a code that is not listed keeps its providers. *)
Theorem registerCodeAction_getAll (registration : Registration)
    (m : MultiMap.t Registration) (code : string) :
  MultiMap.getAll (Static.registerCodeAction registration m) code
  = MultiMap.getAll m code
    ++ replicate (occurrences code (errorCodes registration)) registration.
Proof. unfold Static.registerCodeAction. apply getAll_foldl_set. Qed.

Lemma occurrences_zero (code : string) (codes : list string) :
  ~ In code codes -> occurrences code codes = 0.
Proof.
  unfold occurrences. induction codes as [|c codes IH]; [done|].
  intros Hnot. cbn [List.filter].
  destruct (String.eqb_spec code c) as [->|Hne].
  - destruct Hnot. by left.
  - apply IH. intros Hin. apply Hnot. by right.
Qed.

Lemma occurrences_one (code : string) (codes : list string) :
  NoDup codes -> In code codes -> occurrences code codes = 1.
Proof.
  unfold occurrences. induction 1 as [|c codes Hc Hnd IH]; [done|].
  intros Hin. cbn [List.filter].
  destruct (String.eqb_spec code c) as [->|Hne].
  - cbn [length]. f_equal. apply occurrences_zero.
    intros Hin'. apply Hc. by apply list_elem_of_In.
  - apply IH. by destruct Hin as [->|Hin].
Qed.

(** X2. Two providers registered for the same code are looked up in the order
    of their registration, after the providers that were there; with codes
    listed once, each is there once. *)
Theorem registration_order (first second : Registration)
    (m : MultiMap.t Registration) (code : string) :
  NoDup (errorCodes first) -> NoDup (errorCodes second) ->
  In code (errorCodes first) -> In code (errorCodes second) ->
  MultiMap.getAll
    (Static.registerCodeAction second (Static.registerCodeAction first m))
    code
  = MultiMap.getAll m code ++ [first; second].
Proof.
  intros Hnd1 Hnd2 Hin1 Hin2.
  unfold Static.registerCodeAction. rewrite !getAll_foldl_set.
  rewrite (occurrences_one code (errorCodes first)) by done.
  rewrite (occurrences_one code (errorCodes second)) by done.
  simpl. by rewrite <- app_assoc.
Qed.

End RegistryProperties.

(** ** The fix-all helper *)

Section FixAllHelper.
Import CodeActionProvider.



End FixAllHelper.

(** ** The range-based detections *)

Section RefactorProperties.
Context {TU : TreeUtils} {RU : RefactorEditUtils}.
Variable this : Services.
Import CodeActionProvider.

Ltac members :=
  repeat match goal with
         | H : In _ [] |- _ => destruct H
         | H : In _ (_ :: _) |- _ => destruct H as [<-|H]
         end.

Lemma type_is_exclusive (o : option SyntaxNode) (ty ty' : string) :
  ty <> ty' -> type_is o ty = true -> type_is o ty' = false.
Proof.
  destruct o as [n|]; [|done]. simpl. intros Hne Hty.
  apply String.eqb_eq in Hty. apply String.eqb_neq. congruence.
Qed.

(** X4. The function refactors: nothing for a let-bound function; at most two
    actions, at most one without the move setting; "Move Function" only
    with the setting, and then for the request range and the name under
    the cursor; "Unexpose Function" only for an exposed name and "Expose
    Function" only for one that is not, so never both. *)
Theorem function_refactor_shape (params : Params) (tree : Tree)
    (nodeAtPosition : SyntaxNode) :
  let actions := getFunctionCodeActions this params tree nodeAtPosition in
  (truthy (findParentOfType "let_in_expr" nodeAtPosition) = true ->
   actions = [])
  /\ length actions <= 2
  /\ (moveFunctionRefactoringSupport this = false -> length actions <= 1)
  /\ (forall action command,
        In action actions -> ca_command action = Some command ->
        moveFunctionRefactoringSupport this = true
        /\ ca_title action = "Move Function"
        /\ cmd_range command = range params
        /\ cmd_uri command = textDocument_uri params
        /\ cmd_functionName command = Node.text nodeAtPosition)
  /\ (forall action,
        In action actions ->
        (ca_title action = "Unexpose Function" ->
         isExposedFunction tree (Node.text nodeAtPosition) = true)
        /\ (ca_title action = "Expose Function" ->
            isExposedFunction tree (Node.text nodeAtPosition) = false)).
Proof.
  cbv zeta. unfold getFunctionCodeActions.
  destruct (findParentOfType "let_in_expr" nodeAtPosition) as [letIn|];
    cbn [truthy negb].
  { rewrite andb_false_r. simpl. repeat split; try done; lia. }
  rewrite andb_true_r.
  destruct (type_is (Node.parent nodeAtPosition) "type_annotation"
            || type_is (Node.parent nodeAtPosition)
                       "function_declaration_left");
    [|simpl; repeat split; try done; lia].
  destruct (moveFunctionRefactoringSupport this),
    (isExposedFunction tree (Node.text nodeAtPosition)),
    (unexposedValueInModule tree (Node.text nodeAtPosition)),
    (exposeValueInModule tree (Node.text nodeAtPosition));
    cbn [app length]; (split; [|split; [|split; [|split]]]).
  all: try (intros _; lia).
  all: try lia.
  all: try discriminate.
  all: try (intros action command Hin Hcommand; members;
            cbn in Hcommand; try discriminate;
            injection Hcommand as <-; repeat split; reflexivity).
  all: intros action Hin; members; cbn; split; intros Htitle;
    first [reflexivity | discriminate].
Qed.

Lemma function_refactor_bound (params : Params) (tree : Tree)
    (nodeAtPosition : SyntaxNode) :
  length (getFunctionCodeActions this params tree nodeAtPosition) <= 2.
Proof.
  unfold getFunctionCodeActions.
  destruct (_ && _); [|simpl; lia]. rewrite length_app.
  destruct (moveFunctionRefactoringSupport this),
    (isExposedFunction tree (Node.text nodeAtPosition)),
    (unexposedValueInModule tree (Node.text nodeAtPosition)),
    (exposeValueInModule tree (Node.text nodeAtPosition)); simpl; lia.
Qed.

Lemma type_refactor_bound (params : Params) (tree : Tree)
    (nodeAtPosition : SyntaxNode) :
  length (getTypeAliasCodeActions params tree nodeAtPosition) <= 1.
Proof.
  unfold getTypeAliasCodeActions.
  destruct (_ && _); [|simpl; lia].
  destruct (isExposedTypeOrTypeAlias tree (Node.text nodeAtPosition)),
    (unexposedValueInModule tree (Node.text nodeAtPosition)),
    (exposeValueInModule tree (Node.text nodeAtPosition)); simpl; lia.
Qed.

Lemma type_refactors_exclude_the_others_aux (params : Params) (tree : Tree)
    (nodeAtPosition : SyntaxNode) :
  getTypeAliasCodeActions params tree nodeAtPosition <> [] ->
  getFunctionCodeActions this params tree nodeAtPosition = []
  /\ getMakeDeclarationFromUsageCodeActions params nodeAtPosition = [].
Proof.
  unfold getTypeAliasCodeActions, getFunctionCodeActions,
    getMakeDeclarationFromUsageCodeActions, isBareValueUsage.
  destruct (String.eqb_spec (Node.type nodeAtPosition)
                            "upper_case_identifier") as [Hty|Hty];
    cbn [andb]; [|done].
  destruct (type_is (Node.parent nodeAtPosition) "type_alias_declaration")
    eqn:Halias;
    [|destruct (type_is (Node.parent nodeAtPosition) "type_declaration")
        eqn:Hdecl; [|done]];
    intros _; rewrite Hty; cbn [String.eqb andb orb].
  - rewrite (type_is_exclusive _ "type_alias_declaration" "type_annotation"),
      (type_is_exclusive _ "type_alias_declaration"
                         "function_declaration_left") by done.
    done.
  - rewrite (type_is_exclusive _ "type_declaration" "type_annotation"),
      (type_is_exclusive _ "type_declaration" "function_declaration_left")
      by done.
    done.
Qed.

(** X5. The type refactors: nothing unless the node is an upper-case
    identifier; at most one action, a refactor with one edit for the
    document; the title says "Unexpose" exactly for an exposed name and
    has the suffix " Alias" exactly under a [type_alias_declaration]; the
    edit is the one the matching builder returned, and when the builder
    returns nothing (unexposing from an open exposing list) there is no
    action at all. *)
Theorem type_refactor_shape (params : Params) (tree : Tree)
    (nodeAtPosition : SyntaxNode) :
  let actions := getTypeAliasCodeActions params tree nodeAtPosition in
  let typeName := Node.text nodeAtPosition in
  (Node.type nodeAtPosition <> "upper_case_identifier" -> actions = [])
  /\ length actions <= 1
  /\ (isExposedTypeOrTypeAlias tree typeName = true ->
      unexposedValueInModule tree typeName = None -> actions = [])
  /\ (forall action,
        In action actions ->
        exists edit,
          action
          = refactorAction
              ((if isExposedTypeOrTypeAlias tree typeName
                then "Unexpose Type" else "Expose Type")
               +:+ (if type_is (Node.parent nodeAtPosition)
                               "type_alias_declaration"
                    then " Alias" else ""))
              (textDocument_uri params) edit Refactor
          /\ (if isExposedTypeOrTypeAlias tree typeName
              then unexposedValueInModule tree typeName
              else exposeValueInModule tree typeName) = Some edit).
Proof.
  cbv zeta. unfold getTypeAliasCodeActions.
  destruct (String.eqb_spec (Node.type nodeAtPosition)
                            "upper_case_identifier") as [Hty|Hty];
    cbn [andb]; [|repeat split; try done; simpl; lia].
  destruct (type_is (Node.parent nodeAtPosition) "type_alias_declaration"
            || type_is (Node.parent nodeAtPosition) "type_declaration");
    [|repeat split; try done; simpl; lia].
  destruct (isExposedTypeOrTypeAlias tree (Node.text nodeAtPosition)),
    (unexposedValueInModule tree (Node.text nodeAtPosition)) as [u|],
    (exposeValueInModule tree (Node.text nodeAtPosition)) as [e|];
    (split; [done|]); (split; [simpl; lia|]); (split; [done|]);
    intros action Hin; members; eauto.
Qed.

(** X6. A node gets type refactors or function and usage actions, never
    both: when the detection finds a type refactor, the type refactor is
    all it returns. *)
Theorem type_refactors_exclude_the_others (params : Params) (tree : Tree) :
  getTree (getForest (program params)) (textDocument_uri params)
  = Some tree ->
  let nodeAtPosition :=
    getNamedDescendantForPosition (rootNode tree) (r_start (range params)) in
  getTypeAliasCodeActions params tree nodeAtPosition <> [] ->
  getRefactorCodeActions this params
  = getTypeAliasCodeActions params tree nodeAtPosition.
Proof.
  intros Htree nodeAtPosition Halias.
  unfold getRefactorCodeActions. rewrite Htree. fold nodeAtPosition.
  destruct (type_refactors_exclude_the_others_aux params tree nodeAtPosition
              Halias) as [-> ->].
  by rewrite app_nil_r.
Qed.

Lemma getMakeDeclaration_length (params : Params)
    (nodeAtPosition : SyntaxNode) :
  length (getMakeDeclarationFromUsageCodeActions params nodeAtPosition) <= 1.
Proof.
  unfold getMakeDeclarationFromUsageCodeActions.
  destruct (isBareValueUsage nodeAtPosition); [|simpl; lia].
  destruct (negb _); [|simpl; lia].
  destruct (createTopLevelFunction _ _ _ _); simpl; lia.
Qed.

(** X7. The range-based refactor detection offers at most three actions for a
    request, and none for a document without a tree. *)
Theorem refactor_actions_bounded (params : Params) :
  length (getRefactorCodeActions this params) <= 3
  /\ (getTree (getForest (program params)) (textDocument_uri params) = None ->
      getRefactorCodeActions this params = []).
Proof.
  unfold getRefactorCodeActions.
  destruct (getTree _ _) as [tree|]; [|split; [simpl; lia | done]].
  split; [|done].
  set (node := getNamedDescendantForPosition _ _).
  rewrite !length_app.
  pose proof (function_refactor_bound params tree node) as Hf.
  pose proof (getMakeDeclaration_length params node) as Hm.
  destruct (getTypeAliasCodeActions params tree node) as [|a l] eqn:Halias.
  - simpl. lia.
  - destruct (type_refactors_exclude_the_others_aux params tree node)
      as [-> ->]; [by rewrite Halias|].
    pose proof (type_refactor_bound params tree node) as Ht.
    rewrite Halias in Ht. simpl in *. lia.
Qed.

Lemma spaces_length (n : nat) : String.length (spaces n) = n.
Proof.
  induction n as [|n IH]; [done|].
  change (S (String.length (spaces n)) = S n). by rewrite IH.
Qed.

(** What it takes for the let-binding annotation to be offered, and the
    action that is offered then. *)
Lemma getTypeAnnotationCodeActions_In (params : Params)
    (action : CodeAction) :
  In action (getTypeAnnotationCodeActions params) ->
  exists container parent declaration,
    getByUri (getForest (program params)) (textDocument_uri params)
    = Some container
    /\ let nodeAtPosition :=
         getNamedDescendantForPosition (rootNode (sf_tree container))
                                       (r_start (range params)) in
       Node.parent nodeAtPosition = Some parent
       /\ Node.type parent = "function_declaration_left"
       /\ truthy (findParentOfType "let_in_expr" nodeAtPosition) = true
       /\ Node.parent parent = Some declaration
       /\ getTypeAnnotation declaration = None
       /\ action
          = refactorAction "Add inferred annotation"
              (textDocument_uri params)
              (TextEdits.insert (Node.startPosition nodeAtPosition)
                 (Node.text nodeAtPosition +:+ " : "
                  +:+ typeToString (getTypeChecker (program params))
                        (findType (getTypeChecker (program params)) parent)
                        container
                  +:+ newline
                  +:+ spaces (character
                                (Node.startPosition nodeAtPosition))))
              QuickFix.
Proof.
  unfold getTypeAnnotationCodeActions.
  destruct (getByUri _ _) as [container|]; [|done].
  set (node := getNamedDescendantForPosition _ _).
  destruct (Node.parent node) as [parent|] eqn:Hparent; [|done].
  destruct (String.eqb_spec (Node.type parent) "function_declaration_left")
    as [Hty|Hty]; cbn [andb]; [|done].
  destruct (truthy (findParentOfType "let_in_expr" node)) eqn:Hlet; [|done].
  destruct (Node.parent parent) as [declaration|] eqn:Hdecl; [|done].
  destruct (getTypeAnnotation declaration) eqn:Hann; [done|].
  cbn [truthy negb]. intros [<-|[]].
  exists container, parent, declaration. split; [done|].
  fold node. rewrite Hparent.
  destruct (Node.startPosition node). done.
Qed.

(** X8. The let-binding annotation is a single quick fix, offered for a name
    inside a [let] only: a request that gets it gets no function refactor
    (move, expose, unexpose) for the same node. *)
Theorem annotation_excludes_function_refactors (params : Params)
    (tree : Tree) (container : SourceFile) :
  getTree (getForest (program params)) (textDocument_uri params)
  = Some tree ->
  getByUri (getForest (program params)) (textDocument_uri params)
  = Some container ->
  sf_tree container = tree ->
  getTypeAnnotationCodeActions params <> [] ->
  length (getTypeAnnotationCodeActions params) = 1
  /\ getFunctionCodeActions this params tree
       (getNamedDescendantForPosition (rootNode tree)
                                      (r_start (range params)))
     = [].
Proof.
  intros Htree Hcontainer Hsame Hoffered.
  destruct (getTypeAnnotationCodeActions params) as [|action rest] eqn:Hactions;
    [done|].
  destruct (getTypeAnnotationCodeActions_In params action)
    as (container' & parent & declaration & Hc & Hparent & _ & Hlet & _);
    [rewrite Hactions; by left|].
  rewrite Hcontainer in Hc. injection Hc as <-. rewrite Hsame in Hlet.
  split.
  - revert Hactions. unfold getTypeAnnotationCodeActions.
    rewrite Hcontainer.
    repeat match goal with
           | |- context [match ?x with _ => _ end] => destruct x
           end; intros [= <- <-]; done.
  - unfold getFunctionCodeActions. rewrite Hlet. cbn [negb].
    by rewrite andb_false_r.
Qed.

(** X9. The inserted annotation keeps the binding's indentation.  Every
    action of the let-binding detection is the quick fix "Add inferred
    annotation" with one insertion at the start of the name under the
    cursor, of the name, [" : "], the rendered type of its parent (the
    left side of the binding), a line break and as many spaces as the
    column of the name; on a line that holds only that indentation in
    front of the name, applying it gives the line
    [<indentation><name> : <type>], a line break, and the old line
    unchanged, with the same indentation. *)
Theorem annotation_keeps_indentation (params : Params) (action : CodeAction) :
  In action (getTypeAnnotationCodeActions params) ->
  exists container parent,
    getByUri (getForest (program params)) (textDocument_uri params)
    = Some container
    /\ let nodeAtPosition :=
         getNamedDescendantForPosition (rootNode (sf_tree container))
                                       (r_start (range params)) in
       let typeString :=
         typeToString (getTypeChecker (program params))
           (findType (getTypeChecker (program params)) parent) container in
       let column := character (Node.startPosition nodeAtPosition) in
       let newText :=
         Node.text nodeAtPosition +:+ " : " +:+ typeString +:+ newline
         +:+ spaces column in
       Node.parent nodeAtPosition = Some parent
       /\ action
          = mkCodeAction "Add inferred annotation" (Some QuickFix)
              (Some [(textDocument_uri params,
                      [TextEdits.insert (Node.startPosition nodeAtPosition)
                                        newText])])
              None None None
       /\ forall rest,
           insertOnLine (spaces column +:+ rest) column newText
           = spaces column +:+ Node.text nodeAtPosition +:+ " : "
             +:+ typeString +:+ newline +:+ spaces column +:+ rest.
Proof.
  intros Hin.
  destruct (getTypeAnnotationCodeActions_In params action Hin)
    as (container & parent & declaration & Hcontainer & Hparent & _ & _ & _
        & _ & ->).
  exists container, parent. split; [exact Hcontainer|]. cbv zeta.
  split; [exact Hparent|]. split; [reflexivity|].
  intros rest. unfold insertOnLine.
  set (indent := spaces (character _)).
  assert (Hlen : character
                   (Node.startPosition
                      (getNamedDescendantForPosition
                         (rootNode (sf_tree container))
                         (r_start (range params))))
                 = String.length indent)
    by (unfold indent; by rewrite spaces_length).
  rewrite Hlen, substring_prefix.
  replace (String.length (indent +:+ rest) - String.length indent)
    with (String.length rest) by (rewrite length_append; lia).
  rewrite substring_suffix. by rewrite !append_assoc.
Qed.

(** X10. The usage-based declaration: it is offered exactly for a bare value
    usage whose name no listed top-level declaration has and for which the
    builder returns an edit, and is then that one edit as a quick fix; a
    name behind a dot (a field access) is never offered one; and when the
    top-level declarations cannot be listed, no name counts as declared. *)
Theorem usage_declaration_offered_iff (params : Params)
    (nodeAtPosition : SyntaxNode) :
  let actions :=
    getMakeDeclarationFromUsageCodeActions params nodeAtPosition in
  let tree := sf_tree (sourceFile params) in
  let edit :=
    createTopLevelFunction
      (default (line (t_end tree))
               (findLineNumberAfterCurrentFunction nodeAtPosition))
      (Node.text nodeAtPosition)
      (typeToString (getTypeChecker (program params))
         (findType (getTypeChecker (program params)) nodeAtPosition)
         (sourceFile params))
      (findParentOfType "function_call_expr" nodeAtPosition) in
  (actions <> []
   <-> isBareValueUsage nodeAtPosition = true
       /\ alreadyDeclared tree (Node.text nodeAtPosition) = false
       /\ is_Some edit)
  /\ (forall action,
        In action actions ->
        exists e,
          edit = Some e
          /\ action = refactorAction "Create local function"
                        (textDocument_uri params) e QuickFix)
  /\ (type_is (Node.previousSibling nodeAtPosition) "dot" = true ->
      actions = [])
  /\ (findAllTopLevelFunctionDeclarations tree = None ->
      alreadyDeclared tree (Node.text nodeAtPosition) = false).
Proof.
  cbv zeta. unfold getMakeDeclarationFromUsageCodeActions.
  split; [|split; [|split]].
  - destruct (isBareValueUsage nodeAtPosition);
      [|split; [done | by intros [? _]]].
    destruct (alreadyDeclared _ _); cbn [negb];
      [split; [done | by intros (_ & ? & _)]|].
    unfold rootNode, Node.endPosition. cbn [sn_tree].
    destruct (createTopLevelFunction _ _ _ _) as [e|].
    + split; [eauto | done].
    + split; [done | by intros (_ & _ & [? ?])].
  - intros action.
    destruct (isBareValueUsage nodeAtPosition); [|done].
    destruct (alreadyDeclared _ _); cbn [negb]; [done|].
    unfold rootNode, Node.endPosition. cbn [sn_tree].
    destruct (createTopLevelFunction _ _ _ _) as [e|]; [|done].
    intros [<-|[]]. eauto.
  - intros Hdot. unfold isBareValueUsage. rewrite Hdot.
    by rewrite andb_false_r.
  - intros Hnone. unfold alreadyDeclared. by rewrite Hnone.
Qed.
End RefactorProperties.

(** ** What a request does to the world *)

Section DispatchEffects.
Context {TU : TreeUtils} {RU : RefactorEditUtils} {DM : DiagnosticsModule}.
Variable this : Services.
Variable errorCodeToRegistrationMap : MultiMap.t Registration.
Import CodeActionProvider.

Local Abbreviation diagnosticActions :=
  (diagnosticActions errorCodeToRegistrationMap).
Local Abbreviation onCodeAction :=
  (onCodeAction this errorCodeToRegistrationMap).

Lemma callsPaired_app (l1 l2 : list Event) :
  callsPaired l1 -> callsPaired l2 -> callsPaired (l1 ++ l2).
Proof.
  induction 1; simpl; intros H2;
    [done | apply paired_single; auto | apply paired_both; auto].
Qed.

Lemma registrationActions_log (diagnostic : Diagnostic) (reg : Registration)
    (w : World) :
  exists acts new,
    registrationActions diagnostic reg w
    = Returned acts (mkWorld (w_params w) (w_log w ++ new))
    /\ callsPaired new
    /\ Forall (fun e => eventRegistration e = reg
                        /\ eventParams e = w_params w) new.
Proof.
  destruct (fixAllOffered_dec diagnostic reg (w_params w)) as [Hg|Hg].
  - do 2 eexists. split; [by apply registrationActions_offered|].
    split; [apply paired_both, paired_nil|]. by repeat constructor.
  - do 2 eexists. split; [by apply registrationActions_not_offered|].
    split; [apply paired_single, paired_nil|]. by repeat constructor.
Qed.

Lemma registrations_log (diagnostic : Diagnostic) (regs : list Registration)
    (w : World) :
  exists acts new,
    flatMapM (registrationActions diagnostic) regs w
    = Returned acts (mkWorld (w_params w) (w_log w ++ new))
    /\ callsPaired new
    /\ Forall (fun e => In (eventRegistration e) regs
                        /\ eventParams e = w_params w) new.
Proof.
  revert w. induction regs as [|reg regs IH]; intros w.
  - exists [], []. cbn [flatMapM]. unfold mret, M_ret.
    rewrite app_nil_r, world_eta. repeat split; constructor.
  - destruct (registrationActions_log diagnostic reg w)
      as (acts & new & Hreg & Hpaired & Hall).
    destruct (IH (mkWorld (w_params w) (w_log w ++ new)))
      as (acts' & new' & Hrest & Hpaired' & Hall').
    exists (acts ++ acts'), (new ++ new'). split; [|split].
    + cbn [flatMapM]. unfold mbind, M_bind. rewrite Hreg, Hrest.
      unfold mret, M_ret. cbn [w_params w_log]. by rewrite app_assoc.
    + by apply callsPaired_app.
    + apply Forall_app. split.
      * eapply Forall_impl; [exact Hall|]. intros e [-> ->].
        split; [by left | done].
      * eapply Forall_impl; [exact Hall'|]. intros e [Hin ->].
        split; [by right | done].
Qed.

Lemma loop_log (ds : list (option Diagnostic)) (w : World) :
  exists acts new,
    flatMapM diagnosticActions ds w
    = Returned acts
        (mkWorld (set_range (w_params w)
                            (rangeAfter ds (range (w_params w))))
                 (w_log w ++ new))
    /\ callsPaired new
    /\ Forall (calledFor errorCodeToRegistrationMap (w_params w) ds) new.
Proof.
  revert w. induction ds as [|entry ds IH]; intros w.
  - exists [], []. cbn [flatMapM]. unfold mret, M_ret, rangeAfter.
    cbn [foldl]. rewrite set_range_same, app_nil_r, world_eta.
    repeat split; constructor.
  - assert (Hone : exists acts new,
               diagnosticActions entry w
               = Returned acts
                   (mkWorld (set_range (w_params w)
                               (rangeAfter [entry] (range (w_params w))))
                            (w_log w ++ new))
               /\ callsPaired new
               /\ Forall (calledFor errorCodeToRegistrationMap (w_params w)
                                    [entry]) new).
    { destruct entry as [diagnostic|].
      - destruct (d_code diagnostic) as [| n | code] eqn:Hcode.
        + exists [], []. rewrite diagnosticActions_skip by (by rewrite Hcode).
          unfold rangeAfter. cbn [foldl]. rewrite Hcode. cbn [isStringCode].
          rewrite set_range_same, app_nil_r, world_eta.
          repeat split; constructor.
        + exists [], []. rewrite diagnosticActions_skip by (by rewrite Hcode).
          unfold rangeAfter. cbn [foldl]. rewrite Hcode. cbn [isStringCode].
          rewrite set_range_same, app_nil_r, world_eta.
          repeat split; constructor.
        + rewrite (diagnosticActions_string _ _ code) by done.
          unfold rangeAfter. cbn [foldl]. rewrite Hcode. cbn [isStringCode].
          destruct (registrations_log diagnostic
                      (MultiMap.getAll errorCodeToRegistrationMap code)
                      (mkWorld (set_range (w_params w) (d_range diagnostic))
                               (w_log w)))
            as (acts & new & Hrun & Hpaired & Hall).
          exists acts, new. split; [exact Hrun|]. split; [done|].
          eapply Forall_impl; [exact Hall|]. intros e [Hin Hparams].
          exists diagnostic, code. split; [by left|]. done.
      - exists [], []. unfold CodeActionProvider.diagnosticActions.
        unfold mret, M_ret, rangeAfter. cbn [foldl].
        rewrite set_range_same, app_nil_r, world_eta.
        repeat split; constructor. }
    destruct Hone as (acts & new & Hone & Hpaired & Hall).
    destruct (IH (mkWorld (set_range (w_params w)
                             (rangeAfter [entry] (range (w_params w))))
                          (w_log w ++ new)))
      as (acts' & new' & Hrest & Hpaired' & Hall').
    exists (acts ++ acts'), (new ++ new'). split; [|split].
    + rewrite rangeAfter_cons, app_assoc. cbn [flatMapM].
      unfold mbind, M_bind. rewrite Hone, Hrest. reflexivity.
    + by apply callsPaired_app.
    + apply Forall_app. split.
      * eapply Forall_impl; [exact Hall|].
        intros e (d & code & Hin & Hcode & Hreg & Hparams).
        exists d, code. split; [|done].
        destruct Hin as [Hin|[]]. by left.
      * eapply Forall_impl; [exact Hall'|].
        intros e (d & code & Hin & Hcode & Hreg & Hparams).
        exists d, code. split; [by right|]. done.
Qed.


Lemma convert_loop_throws (container : SourceFile) (checker : TypeChecker)
    (uri : string) (ds : list (option Diagnostic)) (w : World) :
  In None ds ->
  flatMapM (convertDiagnostic container checker uri) ds w = Threw w.
Proof.
  induction ds as [|[diagnostic|] ds IH]; [done| |done].
  intros [|Hin]; [done|]. cbn [flatMapM]. unfold mbind, M_bind.
  destruct (convertDiagnostic_returns container checker uri diagnostic w)
    as (acts & ->).
  by rewrite IH.
Qed.

Lemma convert_loop_returns (container : SourceFile) (checker : TypeChecker)
    (uri : string) (ds : list (option Diagnostic)) (w : World) :
  ~ In None ds ->
  exists acts,
    flatMapM (convertDiagnostic container checker uri) ds w
    = Returned acts w.
Proof.
  induction ds as [|[diagnostic|] ds IH]; intros Hnot.
  - by eexists.
  - destruct (convertDiagnostic_returns container checker uri diagnostic w)
      as (acts & Hone).
    destruct IH as (acts' & Hrest); [intros Hin; apply Hnot; by right|].
    exists (acts ++ acts'). cbn [flatMapM]. unfold mbind, M_bind.
    by rewrite Hone, Hrest.
  - destruct Hnot. by left.
Qed.

(** The outcome of a request, in one place: the calls it logs, the
    [params] it leaves, and when it throws. *)
Lemma onCodeAction_outcome (w : World) :
  exists new,
    logAfter (onCodeAction w) = w_log w ++ new
    /\ callsPaired new
    /\ Forall (calledFor errorCodeToRegistrationMap (w_params w)
                         (context_diagnostics (w_params w))) new
    /\ paramsAfter (onCodeAction w)
       = set_range (w_params w)
           (rangeAfter (context_diagnostics (w_params w))
                       (range (w_params w)))
    /\ (returned (onCodeAction w) = None
        <-> is_Some (getByUri (getForest (program (w_params w)))
                              (textDocument_uri (w_params w)))
            /\ In None (context_diagnostics (w_params w))).
Proof.
  destruct (loop_log (context_diagnostics (w_params w)) w)
    as (results & new & Hloop & Hpaired & Hall).
  exists new.
  unfold CodeActionProvider.onCodeAction.
  unfold mbind, M_bind, getParams. rewrite Hloop.
  cbn [w_params context_diagnostics set_range program textDocument_uri].
  unfold convertDiagnosticsToCodeActions.
  destruct (getByUri _ _) as [container|].
  - destruct (decide (None ∈ context_diagnostics (w_params w))) as [Hin|Hin].
    + apply list_elem_of_In in Hin.
      rewrite convert_loop_throws by done.
      cbn [logAfter paramsAfter returned w_params w_log].
      split; [done|]. split; [done|]. split; [done|]. split; [done|].
      split; [intros _; split; [by eexists | done] | done].
    + rewrite list_elem_of_In in Hin.
      destruct (convert_loop_returns container
                  (getTypeChecker (program (w_params w)))
                  (textDocument_uri (w_params w))
                  (context_diagnostics (w_params w))
                  (mkWorld (set_range (w_params w)
                              (rangeAfter (context_diagnostics (w_params w))
                                          (range (w_params w))))
                           (w_log w ++ new)) Hin)
        as (converted & ->).
      unfold mret, M_ret.
      cbn [logAfter paramsAfter returned w_params w_log].
      split; [done|]. split; [done|]. split; [done|]. split; [done|].
      split; [done | by intros [_ ?]].
  - unfold mret, M_ret.
    cbn [logAfter paramsAfter returned w_params w_log].
    split; [done|]. split; [done|]. split; [done|]. split; [done|].
    split; [done | by intros [[? ?] _]].
Qed.

(** X11. A request throws exactly when the forest has a tree container for the
    document and an entry of the context diagnostics is [null]: for a
    document without a container, [null] entries are skipped like
    diagnostics without a string code. *)
Theorem onCodeAction_throws_iff (w : World) :
  returned (onCodeAction w) = None
  <-> is_Some (getByUri (getForest (program (w_params w)))
                        (textDocument_uri (w_params w)))
      /\ In None (context_diagnostics (w_params w)).
Proof.
  destruct (onCodeAction_outcome w) as (new & _ & _ & _ & _ & Hthrows).
  exact Hthrows.
Qed.

(** X12. Whether it returns or throws, a request changes nothing of the
    [params] object but its range: the document, the context diagnostics,
    the program and the source file are the ones handed in, and the range
    is the one of the last context diagnostic with a string code. *)
Theorem onCodeAction_assigns_range_only (w : World) :
  let after := paramsAfter (onCodeAction w) in
  textDocument_uri after = textDocument_uri (w_params w)
  /\ context_diagnostics after = context_diagnostics (w_params w)
  /\ program after = program (w_params w)
  /\ sourceFile after = sourceFile (w_params w)
  /\ range after
     = rangeAfter (context_diagnostics (w_params w)) (range (w_params w)).
Proof.
  destruct (onCodeAction_outcome w) as (new & _ & _ & _ & Hparams & _).
  cbv zeta. by rewrite Hparams.
Qed.

(** X13. Every provider call of a request is made for a context diagnostic
    with a string code, on a provider registered for that code, and with
    the [params] object at the range of that diagnostic: a provider never
    sees the request range unless a diagnostic has it. *)
Theorem provider_calls_at_diagnostic_range (w : World) :
  exists new,
    logAfter (onCodeAction w) = w_log w ++ new
    /\ forall e,
        In e new ->
        exists d code,
          In (Some d) (context_diagnostics (w_params w))
          /\ d_code d = CodeStr code
          /\ In (eventRegistration e)
                (MultiMap.getAll errorCodeToRegistrationMap code)
          /\ eventParams e = set_range (w_params w) (d_range d).
Proof.
  destruct (onCodeAction_outcome w) as (new & Hlog & _ & Hall & _).
  exists new. split; [done|]. intros e Hin.
  rewrite Forall_forall in Hall. apply Hall. by apply list_elem_of_In.
Qed.

Lemma callsPaired_before_fix_all (log l1 l2 : list Event)
    (reg : Registration) (p : Params) :
  callsPaired log ->
  log = l1 ++ CalledGetFixAllCodeAction reg p :: l2 ->
  exists l0, l1 = l0 ++ [CalledGetCodeActions reg p].
Proof.
  intros Hpaired. revert l1.
  induction Hpaired as [|r q rest _ IH|r q rest _ IH]; intros l1 Heq.
  - by destruct l1.
  - destruct l1 as [|x l1]; [done|]. injection Heq as <- Hrest.
    destruct (IH l1 Hrest) as (l0 & ->).
    by exists (CalledGetCodeActions r q :: l0).
  - destruct l1 as [|x [|y l1]]; [done| |].
    + injection Heq as <- <- <- _. by exists [].
    + injection Heq as <- <- Hrest.
      destruct (IH l1 Hrest) as (l0 & ->).
      by exists (CalledGetCodeActions r q
                 :: CalledGetFixAllCodeAction r q :: l0).
Qed.

(** X14. A request keeps the earlier log and appends its own calls, and in
    those every call of [getFixAllCodeAction] directly follows the call
    of [getCodeActions] of the same provider on the same [params]: no
    provider is asked for a fix-all action before, or without, being
    asked for its single fixes. *)
Theorem fix_all_call_follows_single_fix_call (w : World) :
  exists new,
    logAfter (onCodeAction w) = w_log w ++ new
    /\ callsPaired new
    /\ forall l1 l2 reg p,
        new = l1 ++ CalledGetFixAllCodeAction reg p :: l2 ->
        exists l0, l1 = l0 ++ [CalledGetCodeActions reg p].
Proof.
  destruct (onCodeAction_outcome w) as (new & Hlog & Hpaired & _).
  exists new. split; [done|]. split; [done|].
  intros l1 l2 reg p. by apply callsPaired_before_fix_all.
Qed.

Lemma loop_without_string_codes (ds : list (option Diagnostic)) (w : World) :
  Forall (fun entry => hasStringCode entry = false) ds ->
  flatMapM diagnosticActions ds w = Returned [] w.
Proof.
  induction 1 as [|entry ds Hentry _ IH]; [done|].
  cbn [flatMapM]. unfold mbind, M_bind.
  assert (Hone : diagnosticActions entry w = Returned [] w).
  { destruct entry as [diagnostic|]; [|done].
    by apply diagnosticActions_skip. }
  by rewrite Hone, IH.
Qed.

Lemma convert_without_string_codes (container : SourceFile)
    (checker : TypeChecker) (uri : string) (ds : list (option Diagnostic))
    (w : World) :
  Forall (fun entry =>
            exists d, entry = Some d /\ isStringCode (d_code d) = false) ds ->
  flatMapM (convertDiagnostic container checker uri) ds w = Returned [] w.
Proof.
  induction 1 as [|entry ds (d & -> & Hcode) _ IH]; [done|].
  cbn [flatMapM]. unfold mbind, M_bind.
  rewrite convertDiagnostic_skip, IH; [done|].
  intros Heq. by rewrite Heq in Hcode.
Qed.

(** X15. A request whose context diagnostics all lack a string code (or that
    has none) leaves the world as it found it, calls no provider, and
    returns the range-based actions for the request range, followed by
    the ones of the external sources. *)
Theorem request_range_kept_without_string_codes (w : World) :
  Forall (fun entry =>
            exists d, entry = Some d /\ isStringCode (d_code d) = false)
         (context_diagnostics (w_params w)) ->
  onCodeAction w
  = Returned
      (getRefactorCodeActions this (w_params w)
       ++ getTypeAnnotationCodeActions (w_params w)
       ++ elmMake_onCodeAction this (w_params w)
       ++ elmDiagnostics_onCodeAction this (w_params w))
      w.
Proof.
  intros Hall.
  unfold CodeActionProvider.onCodeAction. unfold mbind, M_bind, getParams.
  rewrite loop_without_string_codes.
  - unfold convertDiagnosticsToCodeActions.
    destruct (getByUri _ _) as [container|]; [|done].
    by rewrite convert_without_string_codes.
  - eapply Forall_impl; [exact Hall|]. by intros entry (d & -> & Hcode).
Qed.

(** X16. What comes back from one provider for a diagnostic: its single-fix
    actions, in its order, each with the diagnostic as the only diagnostic
    it resolves and everything else as the provider returned it; then at
    most one more action, the fix-all action exactly as the provider built
    it (its diagnostics are not replaced). *)
Theorem single_fixes_tagged (diagnostic : Diagnostic) (reg : Registration)
    (w : World) :
  exists tagged rest w',
    registrationActions diagnostic reg w = Returned (tagged ++ rest) w'
    /\ Forall2
         (fun action action' =>
            ca_diagnostics action' = Some [diagnostic]
            /\ ca_title action' = ca_title action
            /\ ca_kind action' = ca_kind action
            /\ ca_changes action' = ca_changes action
            /\ ca_isPreferred action' = ca_isPreferred action
            /\ ca_command action' = ca_command action)
         (default [] (getCodeActions reg (w_params w))) tagged
    /\ length rest <= 1
    /\ forall fixAll,
        In fixAll rest ->
        getFixAllCodeAction reg (w_params w) = Some fixAll.
Proof.
  assert (Htagged : forall l,
             Forall2
               (fun action action' =>
                  ca_diagnostics action' = Some [diagnostic]
                  /\ ca_title action' = ca_title action
                  /\ ca_kind action' = ca_kind action
                  /\ ca_changes action' = ca_changes action
                  /\ ca_isPreferred action' = ca_isPreferred action
                  /\ ca_command action' = ca_command action)
               l (map (fun a => addDiagnosticToCodeAction a diagnostic) l)).
  { induction l as [|a l IH]; simpl; constructor; [done | exact IH]. }
  destruct (fixAllOffered_dec diagnostic reg (w_params w)) as [Hg|Hg].
  - do 3 eexists. split; [by apply registrationActions_offered|].
    split; [apply Htagged|].
    destruct (getFixAllCodeAction reg (w_params w)); simpl.
    + split; [lia|]. by intros fixAll [<-|[]].
    + split; [lia | done].
  - exists (singleFixActions diagnostic reg (w_params w)), [].
    eexists. rewrite app_nil_r.
    split; [by apply registrationActions_not_offered|].
    split; [apply Htagged|]. split; [simpl; lia | done].
Qed.

End DispatchEffects.

(** ** More on the provider *)

Section ProviderInvariants.
Context {TU : TreeUtils} {DM : DiagnosticsModule}.
Import CodeActionProvider IntroduceNewFunctionArgument.

(** X18. Every action of the provider is a preferred quick fix without
    diagnostics or command that edits the source file of the request only,
    by one or two edits that are pure insertions; the first one inserts
    the identifier under the cursor followed by a space. *)
Theorem provider_actions_are_insertions (params : Params) (range : Range)
    (actions : list CodeAction) :
  getActions params range = Some actions ->
  Forall
    (fun action =>
       ca_kind action = Some QuickFix
       /\ ca_isPreferred action = Some true
       /\ ca_diagnostics action = None
       /\ ca_command action = None
       /\ exists first others,
           ca_changes action
           = Some [(sf_uri (sourceFile params), first :: others)]
           /\ length others <= 1
           /\ Forall isInsertion (first :: others)
           /\ te_newText first
              = Node.text (getNamedDescendantForRange (sourceFile params)
                                                      range)
                +:+ " ")
    actions.
Proof.
  unfold getActions.
  set (node := getNamedDescendantForRange (sourceFile params) range).
  destruct (isBareValueUsage node); [|done]. intros [= <-].
  apply Forall_forall. intros action Hin.
  apply list_elem_of_omap in Hin as (valueDeclaration & _ & Haction).
  destruct (Node.firstChild valueDeclaration ≫= Node.lastChild)
    as [lastPattern|] eqn:Hlast;
    [|unfold getActionsForValueDeclaration in Haction;
      by rewrite Hlast in Haction].
  rewrite (getActionsForValueDeclaration_eq _ _ lastPattern) in Haction
    by done.
  injection Haction as <-. cbn.
  split; [done|]. split; [done|]. split; [done|]. split; [done|].
  do 2 eexists. split; [reflexivity|].
  destruct (lastArgumentType valueDeclaration); cbn.
  - split; [lia|]. split; [|done]. by repeat constructor.
  - split; [lia|]. split; [|done]. by repeat constructor.
Qed.

Lemma not_usage_after_dot (n : SyntaxNode) :
  type_is (Node.previousSibling n) "dot" = true ->
  isBareValueUsage n = false.
Proof.
  intros Hdot. unfold isBareValueUsage. rewrite Hdot.
  by rewrite andb_false_r.
Qed.

(** X19. Where the node at the range is not a bare value usage (not a
    lower-case identifier, not inside a [value_expr], or a field behind a
    dot) the provider returns [undefined]; the dispatcher then gets no
    action from it and does not ask it for a fix-all action, whatever the
    document's diagnostics. *)
Theorem provider_declines_non_usage (diagnostic : Diagnostic) (w : World) :
  isBareValueUsage
    (getNamedDescendantForRange (sourceFile (w_params w))
                                (range (w_params w))) = false ->
  getCodeActions registration (w_params w) = None
  /\ registrationActions diagnostic registration w
     = Returned []
         (mkWorld (w_params w)
            (w_log w ++ [CalledGetCodeActions registration (w_params w)])).
Proof.
  intros Hnot.
  assert (Hnone : getCodeActions registration (w_params w) = None).
  { cbn. unfold getActions. by rewrite Hnot. }
  split; [done|].
  rewrite registrationActions_not_offered.
  - unfold singleFixActions. by rewrite Hnone.
  - intros [(a & l & Hsome) _]. by rewrite Hnone in Hsome.
Qed.

(** X20. A declaration without parameters, whose left side is its name alone,
    gets the identifier as its first parameter: the insertion goes one
    column past the end of the name, and the title quotes the name. *)
Theorem argument_after_name
    (valueDeclaration nodeAtPosition left : SyntaxNode) (params : Params)
    (name : option string * Tree) :
  Node.firstChild valueDeclaration = Some left ->
  t_children (sn_tree left) = [name] ->
  exists action others,
    getActionsForValueDeclaration valueDeclaration nodeAtPosition params
    = Some action
    /\ ca_title action
       = "Add new parameter to " +:+ dquote +:+ t_text name.2 +:+ dquote
    /\ ca_changes action
       = Some [(sf_uri (sourceFile params),
                TextEdits.insert
                  (mkPosition (line (t_end name.2))
                              (character (t_end name.2) + 1))
                  (Node.text nodeAtPosition +:+ " ") :: others)].
Proof.
  intros Hleft Hchildren.
  assert (Hlast : Node.firstChild valueDeclaration ≫= Node.lastChild
                  = Some (mkNode name.2 ((sn_tree left, 0) :: sn_up left))).
  { rewrite Hleft. cbn. unfold Node.lastChild, Node.child.
    by rewrite Hchildren. }
  assert (Hfirst : Node.firstChild valueDeclaration ≫= Node.firstChild
                   = Some (mkNode name.2 ((sn_tree left, 0) :: sn_up left))).
  { rewrite Hleft. cbn. unfold Node.firstChild, Node.child.
    by rewrite Hchildren. }
  do 2 eexists.
  rewrite (getActionsForValueDeclaration_eq _ _ _ _ Hlast), Hfirst.
  split; [reflexivity|]. split; reflexivity.
Qed.
End ProviderInvariants.

(** ** The further properties on the sample documents *)

Section MoreSampleChecks.
Local Existing Instance Sample.treeUtils.
Local Existing Instance Sample.refactorEditUtils.
Local Existing Instance Sample.diagnosticsModule.
Import CodeActionProvider.

(** The underscore provider registered after the provider of this
    development: the two are looked up in that order. *)
Lemma registration_order_sample :
  MultiMap.getAll
    (Static.registerCodeAction Sample.underscoreProvider Sample.registry)
    "missing_value"
  = [IntroduceNewFunctionArgument.registration; Sample.underscoreProvider].
Proof.
  apply (registration_order IntroduceNewFunctionArgument.registration
           Sample.underscoreProvider MultiMap.empty "missing_value").
  - repeat constructor. by intros ?%elem_of_nil.
  - repeat constructor. by intros ?%elem_of_nil.
  - by left.
  - by left.
Defined.


(** On the name of the alias [Id] the detection returns the type refactor
    and nothing else. *)
Lemma type_refactors_exclude_the_others_sample :
  map ca_title
      (getRefactorCodeActions Sample.busyServices
         (Small.typesRequest (Sample.at_ 0 11 13)))
  = ["Expose Type Alias"].
Proof.
  rewrite (type_refactors_exclude_the_others Sample.busyServices
             (Small.typesRequest (Sample.at_ 0 11 13)) Small.types).
  - reflexivity.
  - reflexivity.
  - discriminate.
Defined.

(** On the name of the local [g] the annotation is offered, and no
    function refactor. *)
Lemma annotation_excludes_function_refactors_sample :
  length (getTypeAnnotationCodeActions
            (Sample.request (Sample.at_ 3 8 9) [] [])) = 1
  /\ getFunctionCodeActions Sample.busyServices
       (Sample.request (Sample.at_ 3 8 9) [] []) Sample.file
       (getNamedDescendantForPosition (rootNode Sample.file)
                                      (mkPosition 3 8))
     = [].
Proof.
  apply (annotation_excludes_function_refactors Sample.busyServices
           (Sample.request (Sample.at_ 3 8 9) [] []) Sample.file
           Sample.source).
  - reflexivity.
  - reflexivity.
  - reflexivity.
  - discriminate.
Defined.

(** The annotation of [g], indented by eight columns like [g] itself. *)
Lemma annotation_keeps_indentation_sample :
  getTypeAnnotationCodeActions (Sample.request (Sample.at_ 3 8 9) [] [])
  = [mkCodeAction "Add inferred annotation" (Some QuickFix)
       (Some [(Sample.uri,
               [TextEdits.insert (mkPosition 3 8)
                  ("g : Int" +:+ newline +:+ "        ")])])
       None None None]
  /\ insertOnLine "        g b = x" 8
       ("g : Int" +:+ newline +:+ "        ")
     = "        g : Int" +:+ newline +:+ "        g b = x".
Proof.
  destruct (getTypeAnnotationCodeActions
              (Sample.request (Sample.at_ 3 8 9) [] []))
    as [|action rest] eqn:Hactions; [discriminate Hactions|].
  destruct rest; [|discriminate Hactions].
  destruct (annotation_keeps_indentation
              (Sample.request (Sample.at_ 3 8 9) [] []) action)
    as (container & parent & Hcontainer & Hparent & Haction & Hline).
  { rewrite Hactions. by left. }
  injection Hcontainer as <-. injection Hparent as <-.
  split; [by rewrite Haction | exact (Hline "g b = x")].
Defined.

Example annotation_sample_text :
  map (editsFor Sample.uri)
      (getTypeAnnotationCodeActions (Sample.request (Sample.at_ 3 8 9) [] []))
  = [Some [TextEdits.insert (mkPosition 3 8)
             ("g : Int" +:+ newline +:+ "        ")]].
Proof. reflexivity. Qed.

(** A request on the name of [f] whose only context diagnostic has a
    numeric code gets the refactor for [f], at the request range. *)
Lemma request_range_kept_sample :
  map ca_title
    <$> returned
          (onCodeAction Sample.services Sample.registry
             (initial (Sample.request (Sample.at_ 1 0 1)
                         [Some Sample.code42] [Sample.missing_x])))
  = Some ["Expose Function"].
Proof.
  rewrite (request_range_kept_without_string_codes Sample.services
             Sample.registry).
  - reflexivity.
  - repeat constructor. by exists Sample.code42.
Defined.


(** The two actions for the unbound [x] are insertions into the sample
    file. *)
Lemma provider_actions_are_insertions_sample :
  exists actions,
    IntroduceNewFunctionArgument.getActions
      (Sample.request Sample.x_range [] []) Sample.x_range = Some actions
    /\ Forall
         (fun action =>
            exists edits,
              editsFor Sample.uri action = Some edits
              /\ Forall isInsertion edits)
         actions.
Proof.
  destruct (IntroduceNewFunctionArgument.getActions
              (Sample.request Sample.x_range [] []) Sample.x_range)
    as [actions|] eqn:Hactions; [|discriminate Hactions].
  exists actions. split; [reflexivity|].
  eapply Forall_impl;
    [exact (provider_actions_are_insertions _ _ _ Hactions)|].
  intros action (_ & _ & _ & _ & first & others & Hchanges & _ & Hins & _).
  exists (first :: others). split; [|exact Hins].
  unfold editsFor. rewrite Hchanges. reflexivity.
Defined.

(** On the name of [f], which is no usage, the provider declines. *)
Lemma provider_declines_non_usage_sample :
  registrationActions Sample.missing_x
    IntroduceNewFunctionArgument.registration
    (initial (Sample.request (Sample.at_ 1 0 1) [Some Sample.missing_x]
                [Sample.missing_x; Sample.missing_y]))
  = Returned []
      (mkWorld (Sample.request (Sample.at_ 1 0 1) [Some Sample.missing_x]
                  [Sample.missing_x; Sample.missing_y])
         [CalledGetCodeActions IntroduceNewFunctionArgument.registration
            (Sample.request (Sample.at_ 1 0 1) [Some Sample.missing_x]
               [Sample.missing_x; Sample.missing_y])]).
Proof.
  apply (provider_declines_non_usage Sample.missing_x
           (initial (Sample.request (Sample.at_ 1 0 1)
                       [Some Sample.missing_x]
                       [Sample.missing_x; Sample.missing_y]))).
  reflexivity.
Defined.

(** [h = z] becomes [h z = z]. *)
Lemma argument_after_name_sample :
  exists action others,
    IntroduceNewFunctionArgument.getActionsForValueDeclaration
      Small.h_declaration Small.z_node
      (Small.constantsRequest (Sample.at_ 0 4 5)) = Some action
    /\ ca_title action = Sample.quoted "h"
    /\ ca_changes action
       = Some [("file:///Constants.elm",
                TextEdits.insert (mkPosition 0 2) "z " :: others)]
    /\ insertOnLine "h = z" 2 "z " = "h z = z".
Proof.
  destruct (argument_after_name Small.h_declaration Small.z_node
              Small.h_left (Small.constantsRequest (Sample.at_ 0 4 5))
              Small.name_h eq_refl eq_refl)
    as (action & others & Haction & Htitle & Hchanges).
  exists action, others.
  split; [exact Haction|]. split; [exact Htitle|].
  split; [exact Hchanges | reflexivity].
Defined.

(** A [null] entry throws in the sample document, and is skipped in a
    document the forest does not hold. *)
Lemma onCodeAction_throws_sample :
  returned
    (onCodeAction Sample.services Sample.registry
       (initial (Sample.request (Sample.at_ 1 4 5) [None] [])))
  = None
  /\ returned
       (onCodeAction Sample.services Sample.registry
          (initial (Sample.unknownRequest (Sample.at_ 1 4 5) [None])))
     <> None.
Proof.
  split.
  - apply (onCodeAction_throws_iff Sample.services Sample.registry).
    split; [by eexists | by left].
  - intros Hthrows.
    apply (onCodeAction_throws_iff Sample.services Sample.registry)
      in Hthrows as [[container Hcontainer] _].
    discriminate Hcontainer.
Defined.
End MoreSampleChecks.
